(** * torcheeg.model_selection.split_groupby_trial

    A shallow embedding of [train_test_split_groupby_trial]
    (src/torcheeg/model_selection/split_groupby_trial.py) and the
    properties of its train/test partition, its on-disk cache and the
    datasets it returns.

    The function is glue over three libraries.  What the function itself
    does (enumerating ids, filtering, resetting the index, positional
    selection, accumulation, concatenation, the existence test on the
    split directory, the copies of the dataset) is written out below.
    What the libraries decide on their own (the iteration order of a
    Python [set], the index arrays returned by scikit-learn's
    [train_test_split], the text pandas writes to and parses from a CSV
    file, the name produced by [get_random_dir_path]) is taken as a
    parameter of the development.  The log messages are left out. *)

From Stdlib Require Import QArith Qround.
From stdpp Require Import base option list gmap strings.

Open Scope string_scope.
Open Scope Z_scope.
Open Scope list_scope.
Open Scope nat_scope.

(** ** Values, rows and data frames *)

(** A cell of the metadata table.  Identifiers and clip names in the
    [info] table are integers or strings; Python's [==] on them is
    structural equality. *)
Inductive Value :=
| VInt (z : Z)
| VStr (s : string).

#[global] Instance Value_eq_dec : EqDecision Value.
Proof. solve_decision. Defined.

(** A row carries its index label next to its cells, so that the two can
    never get out of step. *)
Record Row := mkRow { label : Value; cells : list Value }.

#[global] Instance Row_eq_dec : EqDecision Row.
Proof. solve_decision. Defined.

Record DataFrame := mkDataFrame { columns : list string; rows : list Row }.

#[global] Instance DataFrame_eq_dec : EqDecision DataFrame.
Proof. solve_decision. Defined.

(** pandas frames are rectangular: every row has one cell per column.
    The operations below are written for any value of [DataFrame]; on a
    rectangular one [getitem] yields one value per row (lemma
    [getitem_length]). *)
Definition rectangular (df : DataFrame) : Prop :=
  Forall (λ r, length (cells r) = length (columns df)) (rows df).

(** ** Exceptions and results *)

Inductive Exn :=
| KeyError | ValueError | TypeError | IndexError | AttributeError
| FileNotFoundError | FileExistsError | ParserError.

#[global] Instance Exn_eq_dec : EqDecision Exn.
Proof. solve_decision. Defined.

Inductive Result (A : Type) :=
| Ok (a : A)
| Raise (e : Exn).
Arguments Ok {A} a.
Arguments Raise {A} e.

#[global] Instance Result_ret : MRet Result := λ A a, Ok a.
#[global] Instance Result_bind : MBind Result := λ A B f r,
  match r with
  | Ok a => f a
  | Raise e => Raise e
  end.

(** ** Pure pandas and numpy operations *)

(** Position of a column: the first one carrying the name. *)
Fixpoint column_position (name : string) (cols : list string) : option nat :=
  match cols with
  | [] => None
  | c :: cols' =>
      if decide (c = name) then Some 0
      else S <$> column_position name cols'
  end.

(** [df[name]]: the values of one column, [KeyError] when there is no
    such column. *)
Definition getitem (df : DataFrame) (name : string) : Result (list Value) :=
  match column_position name (columns df) with
  | None => Raise KeyError
  | Some p => Ok (omap (λ r, cells r !! p) (rows df))
  end.

Lemma column_position_lt name cols p :
  column_position name cols = Some p → p < length cols.
Proof.
  revert p. induction cols as [|c cols IH]; intros p; simpl; [done|].
  destruct (decide (c = name)); [intros [= <-]; lia|].
  destruct (column_position name cols) as [q|]; [|done].
  intros [= <-]. specialize (IH q eq_refl). lia.
Qed.

(** On a rectangular frame a column has one value per row. *)
Lemma getitem_length df name col :
  rectangular df → getitem df name = Ok col → length col = length (rows df).
Proof.
  unfold rectangular, getitem. intros Hrect.
  destruct (column_position name (columns df)) as [p|] eqn:Hp; [|done].
  intros [= <-]. apply column_position_lt in Hp.
  induction Hrect as [|r rs Hr _ IH]; [done|]. csimpl.
  destruct (lookup_lt_is_Some_2 (cells r) p) as [v ->]; [lia|].
  simpl. by rewrite IH.
Qed.

(** The row test behind
    [(info['subject_id'] == subject) & (info['trial_id'] == trial_id)]. *)
Definition cells_match (ps pt : nat) (subject trial_id : Value) (c : list Value) : Prop :=
  c !! ps = Some subject ∧ c !! pt = Some trial_id.

#[global] Instance cells_match_dec ps pt subject trial_id c :
  Decision (cells_match ps pt subject trial_id c).
Proof. unfold cells_match. apply _. Defined.

Definition row_matches (ps pt : nat) (subject trial_id : Value) (r : Row) : Prop :=
  cells_match ps pt subject trial_id (cells r).

#[global] Instance row_matches_dec ps pt subject trial_id r :
  Decision (row_matches ps pt subject trial_id r).
Proof. unfold row_matches. apply _. Defined.

(** [info[mask]] for that mask: the matching rows, labels kept. *)
Definition select_group (info : DataFrame) (subject trial_id : Value)
  : Result DataFrame :=
  match column_position "subject_id" (columns info),
        column_position "trial_id" (columns info) with
  | Some ps, Some pt =>
      Ok {| columns := columns info;
            rows := filter (row_matches ps pt subject trial_id) (rows info) |}
  | _, _ => Raise KeyError
  end.

(** A fresh [RangeIndex]. *)
Definition range_label (i : nat) : Value := VInt (Z.of_nat i).

(** [df.reset_index()] on a frame with an unnamed index: the old labels
    become a new first column, called [index], or [level_0] when there
    is a column [index] already; when that name is taken too pandas
    raises [ValueError].  The rows are relabelled [0..n-1]. *)
Definition reset_index_name (cols : list string) : string :=
  if bool_decide ("index" ∈ cols) then "level_0" else "index".

Definition reset_index (df : DataFrame) : Result DataFrame :=
  let name := reset_index_name (columns df) in
  if bool_decide (name ∈ columns df) then Raise ValueError
  else Ok {| columns := name :: columns df;
             rows := imap (λ i r, {| label := range_label i;
                                     cells := label r :: cells r |}) (rows df) |}.

Definition len (df : DataFrame) : nat := length (rows df).

(** [np.arange(n)] *)
Definition arange (n : nat) : list nat := seq 0 n.

(** [df.iloc[idx]] for an array of positions: [IndexError] when one of
    them is out of bounds. *)
Definition iloc (df : DataFrame) (idx : list nat) : Result DataFrame :=
  match mapM (λ i, rows df !! i) idx with
  | Some rs => Ok {| columns := columns df; rows := rs |}
  | None => Raise IndexError
  end.

(** [pd.concat(frames, ignore_index=True)].  [None] is not an iterable
    ([TypeError]), an empty list has nothing to concatenate
    ([ValueError]).  Every frame this function passes has the columns of
    the first one (lemma [pieces_same_columns] below), the case in which
    pandas' alignment of columns is the identity; the rows are appended
    and relabelled. *)
Definition relabel (rs : list Row) : list Row :=
  imap (λ i r, {| label := range_label i; cells := cells r |}) rs.

Definition pd_concat (frames : option (list DataFrame)) : Result DataFrame :=
  match frames with
  | None => Raise TypeError
  | Some [] => Raise ValueError
  | Some (f :: fs) =>
      Ok {| columns := columns f;
            rows := relabel (concat (rows <$> f :: fs)) |}
  end.

(** ** Parameters of [train_test_split] *)

(** [test_size]: a proportion or an absolute number of samples. *)
Inductive TestSize :=
| TsFloat (q : Q)
| TsInt (k : Z).

(** The literal [0.2], the default. *)
Definition test_size_default : TestSize := TsFloat (2 # 10).

(** The state of numpy's global generator, as its words. *)
Definition RngState := list Z.

(** ** The world: files, objects, generator *)

Definition loc := positive.

(** Objects on the heap.  A dataset is its [__dict__]: attribute names
    bound to references.  Everything that is neither a dataset nor a
    frame (the sample storage [eeg_io], the transforms) is opaque. *)
Inductive PyObj :=
| DatasetObj (attrs : gmap string loc)
| FrameObj (df : DataFrame)
| OpaqueObj (payload : list Z).

Section SplitGroupbyTrial.

(** What a file holds.  The function never looks inside: it hands a
    frame to [to_csv] and gets one from [read_csv]. *)
Context {FileContent : Type}.

(** A directory is a finite map from file names to their contents; the
    file system maps the paths that exist to directories. *)
Record World := mkWorld {
  fs : gmap string (gmap string FileContent);
  heap : gmap loc PyObj;
  rng : RngState
}.

(** Computations of the function: a state monad over the world that may
    raise.  The world after an exception is kept: what was written
    before the exception stays written. *)
Definition M (A : Type) : Type := World → Result A * World.

#[global] Instance M_ret : MRet M := λ A a w, (Ok a, w).
#[global] Instance M_bind : MBind M := λ A B f m w,
  match m w with
  | (Ok a, w') => f a w'
  | (Raise e, w') => (Raise e, w')
  end.

Definition lift {A} (r : Result A) : M A := λ w, (r, w).

(** [for x in xs: body], threading the variables the body assigns. *)
Fixpoint for_each {A S} (xs : list A) (body : A → S → M S) (s : S) : M S :=
  match xs with
  | [] => mret s
  | x :: xs' => s' ← body x s; for_each xs' body s'
  end.

(** *** Files *)

Definition os_path_exists (path : string) : M bool :=
  λ w, (Ok (bool_decide (is_Some (fs w !! path))), w).

Definition os_makedirs (path : string) : M unit :=
  λ w, match fs w !! path with
       | Some _ => (Raise FileExistsError, w)
       | None => (Ok (), {| fs := <[path := ∅]> (fs w); heap := heap w; rng := rng w |})
       end.

Definition write_file (path name : string) (text : FileContent) : M unit :=
  λ w, match fs w !! path with
       | None => (Raise FileNotFoundError, w)
       | Some d => (Ok (), {| fs := <[path := <[name := text]> d]> (fs w);
                             heap := heap w; rng := rng w |})
       end.

Definition read_file (path name : string) : M FileContent :=
  λ w, match fs w !! path with
       | None => (Raise FileNotFoundError, w)
       | Some d => match d !! name with
                   | None => (Raise FileNotFoundError, w)
                   | Some text => (Ok text, w)
                   end
       end.

(** *** Objects *)

Definition alloc (o : PyObj) : M loc :=
  λ w, let l := fresh (dom (heap w)) in
       (Ok l, {| fs := fs w; heap := <[l := o]> (heap w); rng := rng w |}).

(** [dataset.info] *)
Definition getattr_info (dataset : loc) : M DataFrame :=
  λ w, match heap w !! dataset with
       | Some (DatasetObj attrs) =>
           match attrs !! "info" with
           | Some l => match heap w !! l with
                       | Some (FrameObj df) => (Ok df, w)
                       | _ => (Raise TypeError, w)
                       end
           | None => (Raise AttributeError, w)
           end
       | _ => (Raise AttributeError, w)
       end.

(** The table a dataset object holds, when it holds one. *)
Definition dataset_info (w : World) (dataset : loc) : option DataFrame :=
  match heap w !! dataset with
  | Some (DatasetObj attrs) =>
      match attrs !! "info" with
      | Some l => match heap w !! l with
                  | Some (FrameObj df) => Some df
                  | _ => None
                  end
      | None => None
      end
  | _ => None
  end.

(** [obj.info = value] *)
Definition setattr_info (obj value : loc) : M unit :=
  λ w, match heap w !! obj with
       | Some (DatasetObj attrs) =>
           (Ok (), {| fs := fs w;
                      heap := <[obj := DatasetObj (<["info" := value]> attrs)]> (heap w);
                      rng := rng w |})
       | _ => (Raise AttributeError, w)
       end.

(** Modelled from the spec: [copy(dataset)] goes through
    [BaseDataset.__copy__], which is not among the sources.  The spec
    describes it as a shallow copy: a new object whose attributes are
    the references the original holds. *)
Definition copy (obj : loc) : M loc :=
  λ w, match heap w !! obj with
       | Some o => alloc o w
       | None => (Raise AttributeError, w)
       end.

(** ** The function *)

(** [list(set(xs))]: the distinct elements of [xs] in the order in
    which the interpreter's set yields them. *)
Variable list_set : list Value → list Value.

(** scikit-learn's [model_selection.train_test_split] on one array,
    with the arguments in the order of the call; it reads and may
    advance numpy's global generator. *)
Variable sk_train_test_split :
  list nat → TestSize → option Z → bool → RngState →
  Result (list nat * list nat) * RngState.

(** What [DataFrame.to_csv(path, index=False)] writes for a header and
    a body of cells, and what [pd.read_csv] parses from a file. *)
Variable to_csv_text : list string → list (list Value) → FileContent.
Variable read_csv_text : FileContent → Result (list string * list (list Value)).

(** [get_random_dir_path(dir_prefix=...)] of [torcheeg.utils]. *)
Variable get_random_dir_path : string → World → string * World.

Definition train_test_split (indices : list nat) (test_size : TestSize)
    (random_state : option Z) (shuffle : bool) : M (list nat * list nat) :=
  λ w, let '(r, g) :=
         sk_train_test_split indices test_size random_state shuffle (rng w) in
       (r, {| fs := fs w; heap := heap w; rng := g |}).

(** [df.to_csv(os.path.join(path, name), index=False)] *)
Definition to_csv (df : DataFrame) (path name : string) : M unit :=
  write_file path name (to_csv_text (columns df) (cells <$> rows df)).

(** The frame [pd.read_csv] builds from a parsed text. *)
Definition frame_of_csv (parsed : list string * list (list Value)) : DataFrame :=
  {| columns := parsed.1;
     rows := imap (λ i c, {| label := range_label i; cells := c |}) parsed.2 |}.

(** [pd.read_csv(os.path.join(path, name))]: a new frame object. *)
Definition read_csv (path name : string) : M loc :=
  text ← read_file path name;
  parsed ← lift (read_csv_text text);
  alloc (FrameObj (frame_of_csv parsed)).

(** The two accumulators [train_info] and [test_info] of the loops:
    [None] until the first group, then lists of frames. *)
Definition Acc : Type := option (list DataFrame) * option (list DataFrame).

(** The body of the inner loop, lines 82-98. *)
Definition split_group (info : DataFrame) (test_size : TestSize)
    (shuffle : bool) (random_state : option Z)
    (subject trial_id : Value) (acc : Acc) : M Acc :=
  cur_info ← lift (select_group info subject trial_id ≫= reset_index);
  let n_samples := len cur_info in
  let indices := arange n_samples in
  '(train_index, test_index) ←
    train_test_split indices test_size random_state shuffle;
  match acc with
  | (None, None) =>
      tr ← lift (iloc cur_info train_index);
      te ← lift (iloc cur_info test_index);
      mret (Some [tr], Some [te])
  | (Some train_info, Some test_info) =>
      tr ← lift (iloc cur_info train_index);
      te ← lift (iloc cur_info test_index);
      mret (Some (train_info ++ [tr]), Some (test_info ++ [te]))
  | (None, Some _) => lift (Raise AttributeError)
  | (Some _, None) =>
      _ ← lift (iloc cur_info train_index);
      lift (Raise AttributeError)
  end.

(** Lines 72-104: the branch taken when [split_path] does not exist. *)
Definition create_split (dataset : loc) (test_size : TestSize)
    (shuffle : bool) (random_state : option Z) (split_path : string) : M unit :=
  os_makedirs split_path;;
  info ← getattr_info dataset;
  subject_col ← lift (getitem info "subject_id");
  let subjects := list_set subject_col in
  trial_col ← lift (getitem info "trial_id");
  let trial_ids := list_set trial_col in
  '(train_info, test_info) ←
    for_each subjects (λ subject,
      for_each trial_ids (λ trial_id,
        split_group info test_size shuffle random_state subject trial_id))
      (None, None);
  train_info ← lift (pd_concat train_info);
  test_info ← lift (pd_concat test_info);
  to_csv train_info split_path "train.csv";;
  to_csv test_info split_path "test.csv".

Definition train_test_split_groupby_trial (dataset : loc)
    (test_size : TestSize) (shuffle : bool) (random_state : option Z)
    (split_path : option string) : M (loc * loc) :=
  split_path ← match split_path with
               | None => λ w, let '(p, w') :=
                                get_random_dir_path "model_selection" w in
                              (Ok p, w')
               | Some p => mret p
               end;
  present ← os_path_exists split_path;
  (if negb present
   then create_split dataset test_size shuffle random_state split_path
   else mret ());;
  train_info ← read_csv split_path "train.csv";
  test_info ← read_csv split_path "test.csv";
  train_dataset ← copy dataset;
  setattr_info train_dataset train_info;;
  test_dataset ← copy dataset;
  setattr_info test_dataset test_info;;
  mret (train_dataset, test_dataset).

(** ** The split as an enumeration of the cross product

    The second reading of the function, following the words of its
    description: the distinct subjects and the distinct trials are two
    independent axes, every pair of the cross product is filtered and
    split on its own, and the per-pair pieces are concatenated in the
    order of the enumeration.  Only the generator is threaded. *)

(** One pair: its rows with a local index, the split of [0..n-1], the
    two selections. *)
Definition split_one (info : DataFrame) (test_size : TestSize)
    (shuffle : bool) (random_state : option Z) (group : Value * Value)
    (g : RngState) : Result (DataFrame * DataFrame) * RngState :=
  match select_group info group.1 group.2 ≫= reset_index with
  | Raise e => (Raise e, g)
  | Ok cur_info =>
      match sk_train_test_split (arange (len cur_info)) test_size
              random_state shuffle g with
      | (Raise e, g') => (Raise e, g')
      | (Ok (train_index, test_index), g') =>
          (tr ← iloc cur_info train_index;
           te ← iloc cur_info test_index;
           mret (tr, te), g')
      end
  end.

Fixpoint split_pairs (info : DataFrame) (test_size : TestSize)
    (shuffle : bool) (random_state : option Z) (pairs : list (Value * Value))
    (g : RngState) : Result (list (DataFrame * DataFrame)) * RngState :=
  match pairs with
  | [] => (Ok [], g)
  | group :: pairs' =>
      match split_one info test_size shuffle random_state group g with
      | (Raise e, g') => (Raise e, g')
      | (Ok part, g') =>
          match split_pairs info test_size shuffle random_state pairs' g' with
          | (Raise e, g'') => (Raise e, g'')
          | (Ok parts, g'') => (Ok (part :: parts), g'')
          end
      end
  end.

Definition cross_product_split (info : DataFrame) (test_size : TestSize)
    (shuffle : bool) (random_state : option Z) (g : RngState)
  : Result (DataFrame * DataFrame) * RngState :=
  match getitem info "subject_id", getitem info "trial_id" with
  | Ok subject_col, Ok trial_col =>
      let pairs := list_prod (list_set subject_col) (list_set trial_col) in
      match split_pairs info test_size shuffle random_state pairs g with
      | (Raise e, g') => (Raise e, g')
      | (Ok parts, g') =>
          (train_info ← pd_concat (Some parts.*1);
           test_info ← pd_concat (Some parts.*2);
           mret (train_info, test_info), g')
      end
  | Raise e, _ | _, Raise e => (Raise e, g)
  end.

End SplitGroupbyTrial.

(** ** A reference instance of the parameters

    Used to run the function on concrete tables.  The split routine
    follows scikit-learn's [_validate_shuffle_split] and the unshuffled
    branch of [train_test_split]: [n_test = ceil(test_size * n)],
    [n_train = n - n_test], an error when the sizes are out of range or
    the train side would be empty, and then the first [n_train] entries
    and the following [n_test].  The proportion is computed on
    rationals.  The shuffled branch uses a rotation of the array by the
    seed as its permutation, which stands for numpy's generator without
    being it. *)
Module Ref.

Definition list_set (xs : list Value) : list Value := remove_dups xs.

Definition n_test_of (test_size : TestSize) (n : nat) : option nat :=
  match test_size with
  | TsFloat q =>
      if negb (Qle_bool q 0) && negb (Qle_bool 1 q)
      then Some (Z.to_nat (Qceiling (q * inject_Z (Z.of_nat n))))
      else None
  | TsInt k =>
      if bool_decide (0 < k)%Z && bool_decide (k < Z.of_nat n)%Z
      then Some (Z.to_nat k)
      else None
  end.

Definition permutation (random_state : option Z) (g : RngState) (xs : list nat)
  : list nat * RngState :=
  match random_state with
  | Some seed => (rotate (Z.to_nat (Z.abs seed)) xs, g)
  | None => (rotate (Z.to_nat (Z.abs (hd 0%Z g))) xs, tl g)
  end.

Definition sk_train_test_split (indices : list nat) (test_size : TestSize)
    (random_state : option Z) (shuffle : bool) (g : RngState)
  : Result (list nat * list nat) * RngState :=
  let n := length indices in
  match n_test_of test_size n with
  | None => (Raise ValueError, g)
  | Some n_test =>
      let n_train := n - n_test in
      if bool_decide (n_train = 0) then (Raise ValueError, g)
      else if shuffle then
        let '(p, g') := permutation random_state g indices in
        (Ok (take n_train (drop n_test p), take n_test p), g')
      else (Ok (take n_train indices, take n_test (drop n_train indices)), g)
  end.

(** A file holds the header and the cells as they are. *)
Definition FileContent : Type := list string * list (list Value).

Definition to_csv_text (cols : list string) (body : list (list Value))
  : FileContent := (cols, body).

Definition read_csv_text (text : FileContent)
  : Result (list string * list (list Value)) := Ok text.

Definition get_random_dir_path (prefix : string) (w : @World FileContent)
  : string * @World FileContent :=
  (String.append ".torcheeg/" (String.append prefix "_0"), w).

Definition split :=
  train_test_split_groupby_trial list_set sk_train_test_split
    to_csv_text read_csv_text get_random_dir_path.

(** A table of one subject and one trial with ten clips. *)
Definition clip_row (subject trial : Z) (i : nat) : Row :=
  {| label := range_label i;
     cells := [VInt subject; VInt trial; VInt (Z.of_nat i)] |}.

Definition info10 : DataFrame :=
  {| columns := ["subject_id"; "trial_id"; "clip_id"];
     rows := map (clip_row 1 1) (seq 0 10) |}.

(** A heap with one dataset at [1]: its table at [2], its sample
    storage at [3]. *)
Definition heap_of (info : DataFrame) : gmap loc PyObj :=
  {[ 1%positive := DatasetObj {[ "info" := 2%positive; "eeg_io" := 3%positive ]};
     2%positive := FrameObj info;
     3%positive := OpaqueObj [7%Z; 7%Z] ]}.

Definition world_of (info : DataFrame) : @World FileContent :=
  {| fs := ∅; heap := heap_of info; rng := [] |}.

(** The same columns and no row. *)
Definition info0 : DataFrame :=
  {| columns := ["subject_id"; "trial_id"; "clip_id"]; rows := [] |}.

(** Two subjects and two trials, two clips each, the rows of the four
    groups interleaved. *)
Definition grid_row (i : nat) : Row :=
  {| label := range_label i;
     cells := [VInt (Z.of_nat (i mod 2)); VInt (Z.of_nat (i / 2 mod 2));
               VInt (Z.of_nat (i / 4))] |}.

Definition info_grid : DataFrame :=
  {| columns := ["subject_id"; "trial_id"; "clip_id"];
     rows := map grid_row (seq 0 8) |}.

(** The calls the examples below look at, and the worlds they leave. *)
Definition call10 :=
  split 1%positive test_size_default false None (Some "split") (world_of info10).
Definition world10 : @World FileContent := call10.2.

Definition call10_seeded :=
  split 1%positive test_size_default true (Some 42%Z) (Some "run1") (world_of info10).
Definition world10_seeded : @World FileContent := call10_seeded.2.

Definition call_grid :=
  split 1%positive test_size_default false None (Some "split") (world_of info_grid).
Definition world_grid : @World FileContent := call_grid.2.

(** Two subjects with one trial each: subject 1 has no row for trial 2
    and subject 2 none for trial 1. *)
Definition sparse_row (i : nat) : Row :=
  {| label := range_label i;
     cells := [VInt (Z.of_nat (1 + i / 2)); VInt (Z.of_nat (1 + i / 2));
               VInt (Z.of_nat (i mod 2))] |}.

Definition info_sparse : DataFrame :=
  {| columns := ["subject_id"; "trial_id"; "clip_id"];
     rows := map sparse_row (seq 0 4) |}.

(** A table that has been through two nested splits: it carries the
    two columns the resets have added. *)
Definition info_nested : DataFrame :=
  {| columns := ["level_0"; "index"; "subject_id"; "trial_id"; "clip_id"];
     rows := map (λ i, {| label := range_label i;
                          cells := [VInt (Z.of_nat i); VInt (Z.of_nat i);
                                    VInt 1; VInt 1; VInt (Z.of_nat i)] |})
                 (seq 0 10) |}.

(** A table without the column [trial_id]. *)
Definition info_no_trial : DataFrame :=
  {| columns := ["subject_id"; "clip_id"];
     rows := map (λ i, {| label := range_label i;
                          cells := [VInt 1; VInt (Z.of_nat i)] |})
                 (seq 0 10) |}.

(** A heap with a second dataset at [4], on the table at [5], sharing
    the sample storage at [3]. *)
Definition world_two : @World FileContent :=
  {| fs := ∅;
     heap := <[4%positive := DatasetObj {[ "info" := 5%positive;
                                           "eeg_io" := 3%positive;
                                           "name" := 3%positive ]}]>
             (<[5%positive := FrameObj info_grid]> (heap_of info10));
     rng := [] |}.

Definition call_two :=
  split 1%positive test_size_default false None (Some "split") world_two.
Definition world_two_after : @World FileContent := call_two.2.

(** A world in which the path [cache] holds two files written by
    hand, unrelated to the table of the dataset. *)
Definition world_cached : @World FileContent :=
  {| fs := {[ "cache" :=
                {[ "train.csv" := (["subject_id"; "note"], [[VInt 9; VStr "kept"]]);
                   "test.csv" := (["subject_id"; "note"], [[VInt 8; VStr "held out"]]) ]} ]};
     heap := heap_of info10;
     rng := [] |}.




(** The failing call on the table without rows, and the world it leaves. *)
Definition call0 :=
  split 1%positive test_size_default false None (Some "split") (world_of info0).
Definition world0 : @World FileContent := call0.2.

End Ref.


(** * Properties *)

Section Properties.

Context {FileContent : Type}.
Variable list_set : list Value → list Value.
Variable sk_train_test_split :
  list nat → TestSize → option Z → bool → RngState →
  Result (list nat * list nat) * RngState.
Variable to_csv_text : list string → list (list Value) → FileContent.
Variable read_csv_text : FileContent → Result (list string * list (list Value)).
Variable get_random_dir_path :
  string → @World FileContent → string * @World FileContent.

Local Abbreviation split_call :=
  (train_test_split_groupby_trial list_set sk_train_test_split
     to_csv_text read_csv_text get_random_dir_path).
Local Abbreviation create := (create_split list_set sk_train_test_split to_csv_text).
Local Abbreviation body := (split_group sk_train_test_split).
Local Abbreviation one := (split_one sk_train_test_split).
Local Abbreviation pairs_split := (split_pairs sk_train_test_split).
Local Abbreviation cross := (cross_product_split list_set sk_train_test_split).

(** ** The monad *)

Lemma bind_run {A B} (m : M A) (f : A → M B) (w : @World FileContent) :
  (m ≫= f) w = match m w with
               | (Ok a, w') => f a w'
               | (Raise e, w') => (Raise e, w')
               end.
Proof. reflexivity. Qed.

Lemma bind_Ok {A B} (m : M A) (f : A → M B) (w w' : @World FileContent) b :
  (m ≫= f) w = (Ok b, w') →
  ∃ a w1, m w = (Ok a, w1) ∧ f a w1 = (Ok b, w').
Proof.
  rewrite bind_run. destruct (m w) as [[a|e] w1]; [eauto | discriminate].
Qed.

Lemma lift_Ok {A} (r : Result A) (w w' : @World FileContent) a :
  lift r w = (Ok a, w') → r = Ok a ∧ w' = w.
Proof. unfold lift. intros [= -> ->]. done. Qed.

Lemma result_bind_Ok {A B} (r : Result A) (f : A → Result B) b :
  r ≫= f = Ok b → ∃ a, r = Ok a ∧ f a = Ok b.
Proof. destruct r; [eauto | discriminate]. Qed.

(** Changing the generator only. *)
Definition with_rng (w : @World FileContent) (g : RngState) : @World FileContent :=
  {| fs := fs w; heap := heap w; rng := g |}.

Lemma with_rng_id (w : @World FileContent) : with_rng w (rng w) = w.
Proof. by destruct w. Qed.

(** ** The loops *)

(** The nested loops are one loop over the cross product. *)
Lemma for_each_app {A S} (xs ys : list A) (f : A → S → M S) s (w : @World FileContent) :
  for_each (xs ++ ys) f s w = (for_each xs f s ≫= for_each ys f) w.
Proof.
  revert s w. induction xs as [|x xs IH]; intros s w; simpl.
  - reflexivity.
  - rewrite !bind_run. destruct (f x s w) as [[s'|e] w1]; [apply IH | done].
Qed.

Lemma for_each_nested {A B S} (xs : list A) (ys : list B)
    (f : A → B → S → M S) s (w : @World FileContent) :
  for_each xs (λ x, for_each ys (f x)) s w
  = for_each (list_prod xs ys) (λ p, f p.1 p.2) s w.
Proof.
  revert s w. induction xs as [|x xs IH]; intros s w; simpl; [done|].
  rewrite for_each_app, !bind_run.
  assert (Hmap : ∀ s w, for_each (map (λ y, (x, y)) ys) (λ p, f p.1 p.2) s w
                        = for_each ys (f x) s w).
  { clear. induction ys as [|y ys IH]; intros s w; simpl; [done|].
    rewrite !bind_run. destruct (f x y s w) as [[s'|e] w1]; [apply IH | done]. }
  rewrite Hmap. destruct (for_each ys (f x) s w) as [[s'|e] w1]; [apply IH | done].
Qed.

(** What the accumulators hold after a list of pieces. *)
Definition extend (acc : Acc) (parts : list (DataFrame * DataFrame)) : Acc :=
  match parts, acc with
  | [], _ => acc
  | _, (None, None) => (Some parts.*1, Some parts.*2)
  | _, (Some trs, Some tes) => (Some (trs ++ parts.*1), Some (tes ++ parts.*2))
  | _, _ => acc
  end.

Definition balanced (acc : Acc) : Prop :=
  match acc with
  | (None, None) | (Some _, Some _) => True
  | _ => False
  end.

Lemma body_run info ts sh rs st acc (w : @World FileContent) :
  balanced acc →
  body info ts sh rs st.1 st.2 acc w
  = match one info ts sh rs st (rng w) with
    | (Ok part, g) => (Ok (extend acc [part]), with_rng w g)
    | (Raise e, g) => (Raise e, with_rng w g)
    end.
Proof.
  intros Hacc. unfold split_group, split_one. rewrite bind_run. unfold lift at 1.
  destruct (select_group info st.1 st.2 ≫= reset_index) as [cur|e];
    [|by rewrite with_rng_id].
  rewrite bind_run. unfold train_test_split.
  destruct (sk_train_test_split _ _ _ _ _) as [[[tr_i te_i]|e] g]; [|done].
  destruct acc as [[trs|] [tes|]]; try done; simpl;
    rewrite !bind_run; unfold lift;
    destruct (iloc cur tr_i) as [tr|e]; simpl; try done;
    rewrite ?bind_run; destruct (iloc cur te_i) as [te|e]; simpl; done.
Qed.

Lemma extend_balanced acc parts : balanced acc → balanced (extend acc parts).
Proof. destruct acc as [[?|] [?|]], parts; done. Qed.

Lemma extend_cons acc part parts :
  balanced acc → extend (extend acc [part]) parts = extend acc (part :: parts).
Proof.
  destruct acc as [[trs|] [tes|]], parts as [|q parts]; try done; intros _; simpl.
  by rewrite <- !app_assoc.
Qed.

Lemma loop_run info ts sh rs pairs acc (w : @World FileContent) :
  balanced acc →
  for_each pairs (λ p, body info ts sh rs p.1 p.2) acc w
  = match pairs_split info ts sh rs pairs (rng w) with
    | (Ok parts, g) => (Ok (extend acc parts), with_rng w g)
    | (Raise e, g) => (Raise e, with_rng w g)
    end.
Proof.
  revert acc w. induction pairs as [|st pairs IH]; intros acc w Hacc; simpl.
  - by rewrite with_rng_id.
  - rewrite bind_run, body_run by done.
    destruct (one info ts sh rs st (rng w)) as [[part|e] g]; [|done].
    rewrite IH by (by apply extend_balanced).
    change (rng (with_rng w g)) with g.
    destruct (pairs_split info ts sh rs pairs g) as [[parts|e] g']; [|done].
    by rewrite extend_cons.
Qed.

(** ** The primitives *)

Lemma read_csv_Ok path name (w w' : @World FileContent) l :
  read_csv read_csv_text path name w = (Ok l, w') →
  ∃ dir c parsed,
    fs w !! path = Some dir ∧ dir !! name = Some c ∧
    read_csv_text c = Ok parsed ∧
    l = fresh (dom (heap w)) ∧
    w' = {| fs := fs w;
            heap := <[l := FrameObj (frame_of_csv parsed)]> (heap w);
            rng := rng w |}.
Proof.
  unfold read_csv. intros H.
  apply bind_Ok in H as (c & w1 & Hread & H).
  apply bind_Ok in H as (parsed & w2 & Hparse & H).
  apply lift_Ok in Hparse as [Hparse ->].
  unfold read_file in Hread.
  destruct (fs w !! path) as [dir|] eqn:Hdir; [|discriminate].
  destruct (dir !! name) as [c'|] eqn:Hc; [|discriminate].
  injection Hread as -> ->.
  unfold alloc in H. injection H as <- <-.
  by exists dir, c, parsed.
Qed.

Lemma copy_Ok obj (w w' : @World FileContent) a :
  copy obj w = (Ok a, w') →
  ∃ o, heap w !! obj = Some o ∧ a = fresh (dom (heap w)) ∧
       w' = {| fs := fs w; heap := <[a := o]> (heap w); rng := rng w |}.
Proof.
  unfold copy. destruct (heap w !! obj) as [o|]; [|discriminate].
  unfold alloc. intros [= <- <-]. by exists o.
Qed.

Lemma setattr_info_Ok obj value (w w' : @World FileContent) u :
  setattr_info obj value w = (Ok u, w') →
  ∃ attrs, heap w !! obj = Some (DatasetObj attrs) ∧
    w' = {| fs := fs w;
            heap := <[obj := DatasetObj (<["info" := value]> attrs)]> (heap w);
            rng := rng w |}.
Proof.
  unfold setattr_info. destruct (heap w !! obj) as [[attrs| |]|]; try discriminate.
  intros [= <-]. by exists attrs.
Qed.

Lemma fresh_heap_None (h : gmap loc PyObj) : h !! fresh (dom h) = None.
Proof. apply not_elem_of_dom, is_fresh. Qed.

(** ** Reading the split back and copying the dataset, lines 114-123 *)

Definition finish (split_path : string) (dataset : loc) : M (loc * loc) :=
  train_info ← read_csv read_csv_text split_path "train.csv";
  test_info ← read_csv read_csv_text split_path "test.csv";
  train_dataset ← copy dataset;
  setattr_info train_dataset train_info;;
  test_dataset ← copy dataset;
  setattr_info test_dataset test_info;;
  mret (train_dataset, test_dataset).

(** What holds of a world in which [finish] has returned. *)
Record finish_facts (split_path : string) (dataset : loc)
    (w : @World FileContent) (a b : loc) (w' : @World FileContent)
    (fin_dir : gmap string FileContent)
    (fin_train fin_test : list string * list (list Value))
    (fin_attrs : gmap string loc) (fin_l1 fin_l2 : loc) : Prop := {
  fin_fs : fs w' = fs w;
  fin_rng : rng w' = rng w;
  fin_lookup_dir : fs w !! split_path = Some fin_dir;
  fin_parse_train :
    ∃ c, fin_dir !! "train.csv" = Some c ∧ read_csv_text c = Ok fin_train;
  fin_parse_test :
    ∃ c, fin_dir !! "test.csv" = Some c ∧ read_csv_text c = Ok fin_test;
  fin_dataset : heap w !! dataset = Some (DatasetObj fin_attrs);
  fin_a : heap w' !! a = Some (DatasetObj (<["info" := fin_l1]> fin_attrs));
  fin_b : heap w' !! b = Some (DatasetObj (<["info" := fin_l2]> fin_attrs));
  fin_frame1 : heap w' !! fin_l1 = Some (FrameObj (frame_of_csv fin_train));
  fin_frame2 : heap w' !! fin_l2 = Some (FrameObj (frame_of_csv fin_test));
  fin_new : heap w !! a = None ∧ heap w !! b = None ∧
            heap w !! fin_l1 = None ∧ heap w !! fin_l2 = None;
  fin_distinct : a ≠ b ∧ fin_l1 ≠ fin_l2;
  fin_frame : ∀ l o, heap w !! l = Some o → heap w' !! l = Some o
}.

Definition finished (split_path : string) (dataset : loc)
    (w : @World FileContent) (a b : loc) (w' : @World FileContent) : Prop :=
  ∃ dir parsed_train parsed_test attrs l1 l2,
    finish_facts split_path dataset w a b w'
      dir parsed_train parsed_test attrs l1 l2.

Lemma finish_inv p d (w w' : @World FileContent) a b :
  finish p d w = (Ok (a, b), w') → finished p d w a b w'.
Proof.
  unfold finish. intros H.
  apply bind_Ok in H as (l1 & w1 & H1 & H).
  apply bind_Ok in H as (l2 & w2 & H2 & H).
  apply bind_Ok in H as (a' & w3 & H3 & H).
  apply bind_Ok in H as (u4 & w4 & H4 & H).
  apply bind_Ok in H as (b' & w5 & H5 & H).
  apply bind_Ok in H as (u6 & w6 & H6 & H).
  injection H as -> -> ->.
  apply read_csv_Ok in H1 as (dir & c1 & p1 & Hdir & Hc1 & Hp1 & Hl1 & ->).
  apply read_csv_Ok in H2 as (dir' & c2 & p2 & Hdir' & Hc2 & Hp2 & Hl2 & ->).
  simpl in *. rewrite Hdir in Hdir'. injection Hdir' as <-.
  apply copy_Ok in H3 as (o & Ho & Ha & ->). simpl in *.
  apply setattr_info_Ok in H4 as (attrs & Hattrs & ->). simpl in *.
  apply copy_Ok in H5 as (o' & Ho' & Hb & ->). simpl in *.
  apply setattr_info_Ok in H6 as (attrs' & Hattrs' & ->). simpl in *.
  set (h0 := heap w) in *.
  set (h1 := <[l1 := FrameObj (frame_of_csv p1)]> h0) in *.
  set (h2 := <[l2 := FrameObj (frame_of_csv p2)]> h1) in *.
  set (h3 := <[a := o]> h2) in *.
  set (h4 := <[a := DatasetObj (<["info" := l1]> attrs)]> h3) in *.
  set (h5 := <[b := o']> h4) in *.
  assert (N1 : h0 !! l1 = None) by (subst l1; apply fresh_heap_None).
  assert (N2 : h1 !! l2 = None) by (subst l2; apply fresh_heap_None).
  assert (N3 : h2 !! a = None) by (subst a; apply fresh_heap_None).
  assert (N5 : h4 !! b = None) by (subst b; apply fresh_heap_None).
  clear Hl1 Hl2 Ha Hb.
  assert (l1 ≠ l2) by (intros ->; subst h1; by rewrite lookup_insert_eq in N2).
  assert (l1 ≠ a ∧ l2 ≠ a) as [? ?].
  { split; intros ->; subst h2 h1; simplify_map_eq. }
  assert (a ≠ b ∧ l1 ≠ b ∧ l2 ≠ b) as (? & ? & ?).
  { repeat split; intros ->; subst h4 h3 h2 h1; simplify_map_eq. }
  assert (h0 !! l2 = None) by (subst h1; by rewrite lookup_insert_ne in N2).
  assert (h0 !! a = None) by (subst h2 h1; by rewrite !lookup_insert_ne in N3).
  assert (h0 !! b = None) by (subst h4 h3 h2 h1; by rewrite !lookup_insert_ne in N5).
  assert (o = DatasetObj attrs) as ->.
  { subst h3. rewrite lookup_insert_eq in Hattrs. congruence. }
  assert (d ≠ l1 ∧ d ≠ l2 ∧ d ≠ a) as (? & ? & ?).
  { subst h2 h1. repeat split; intros ->; simplify_map_eq. }
  assert (Hd : h0 !! d = Some (DatasetObj attrs)).
  { subst h2 h1. by rewrite !lookup_insert_ne in Ho. }
  assert (d ≠ b) by (intros ->; congruence).
  assert (o' = DatasetObj attrs) as ->.
  { subst h4 h3 h2 h1. rewrite !lookup_insert_ne in Ho' by done. congruence. }
  assert (attrs' = attrs) as ->.
  { subst h5. rewrite lookup_insert_eq in Hattrs'. congruence. }
  exists dir, p1, p2, attrs, l1, l2. split; simpl; try done.
  - by exists c1.
  - by exists c2.
  - subst h5 h4 h3 h2 h1. by rewrite lookup_insert_ne, lookup_insert_ne, lookup_insert_eq.
  - apply lookup_insert_eq.
  - subst h5 h4 h3 h2 h1. rewrite !(lookup_insert_ne _ b), !(lookup_insert_ne _ a) by done.
    by rewrite lookup_insert_ne, lookup_insert_eq.
  - subst h5 h4 h3 h2 h1. rewrite !(lookup_insert_ne _ b), !(lookup_insert_ne _ a) by done.
    by rewrite lookup_insert_eq.
  - intros l ob Hl. subst h5 h4 h3 h2 h1. fold h0 in Hl.
    rewrite !lookup_insert_ne; [done|intros ->; congruence..].
Qed.

Lemma read_csv_run path name (w : @World FileContent) dir c parsed :
  fs w !! path = Some dir → dir !! name = Some c →
  read_csv_text c = Ok parsed →
  read_csv read_csv_text path name w
  = (Ok (fresh (dom (heap w))),
     {| fs := fs w;
        heap := <[fresh (dom (heap w)) := FrameObj (frame_of_csv parsed)]> (heap w);
        rng := rng w |}).
Proof.
  intros Hdir Hc Hparsed. unfold read_csv, read_file.
  rewrite !bind_run, Hdir, Hc. unfold lift. rewrite bind_run, Hparsed.
  reflexivity.
Qed.

Lemma copy_run obj (w : @World FileContent) o :
  heap w !! obj = Some o →
  copy obj w
  = (Ok (fresh (dom (heap w))),
     {| fs := fs w; heap := <[fresh (dom (heap w)) := o]> (heap w); rng := rng w |}).
Proof. intros Ho. unfold copy. by rewrite Ho. Qed.

Lemma setattr_info_run obj value (w : @World FileContent) attrs :
  heap w !! obj = Some (DatasetObj attrs) →
  setattr_info obj value w
  = (Ok (), {| fs := fs w;
               heap := <[obj := DatasetObj (<["info" := value]> attrs)]> (heap w);
               rng := rng w |}).
Proof. intros Ho. unfold setattr_info. by rewrite Ho. Qed.

Lemma finish_total p d (w : @World FileContent) dir c1 c2 parsed1 parsed2 attrs :
  fs w !! p = Some dir →
  dir !! "train.csv" = Some c1 → read_csv_text c1 = Ok parsed1 →
  dir !! "test.csv" = Some c2 → read_csv_text c2 = Ok parsed2 →
  heap w !! d = Some (DatasetObj attrs) →
  ∃ a b w', finish p d w = (Ok (a, b), w').
Proof.
  intros Hdir Hc1 Hp1 Hc2 Hp2 Hd. unfold finish.
  rewrite bind_run, (read_csv_run _ _ _ _ _ _ Hdir Hc1 Hp1).
  set (l1 := fresh (dom (heap w))).
  assert (N1 : heap w !! l1 = None) by apply fresh_heap_None.
  rewrite bind_run, (read_csv_run _ _ _ dir c2 parsed2) by done. cbn [heap fs rng].
  set (h1 := <[l1 := _]> (heap w)).
  set (l2 := fresh (dom h1)).
  assert (N2 : h1 !! l2 = None) by apply fresh_heap_None.
  set (h2 := <[l2 := _]> h1).
  assert (Hd2 : h2 !! d = Some (DatasetObj attrs)).
  { assert (l1 ≠ d) by (intros ->; congruence).
    assert (Hd1 : h1 !! d = Some (DatasetObj attrs)).
    { subst h1. by rewrite lookup_insert_ne. }
    assert (l2 ≠ d) by (intros ->; congruence).
    subst h2. by rewrite lookup_insert_ne. }
  rewrite bind_run. erewrite copy_run by exact Hd2. cbn [heap fs rng].
  set (a := fresh (dom h2)).
  assert (N3 : h2 !! a = None) by apply fresh_heap_None.
  rewrite bind_run. erewrite setattr_info_run by apply lookup_insert_eq.
  cbn [heap fs rng].
  set (h4 := <[a := DatasetObj (<["info" := l1]> attrs)]> _).
  assert (Hd4 : h4 !! d = Some (DatasetObj attrs)).
  { subst h4. rewrite !lookup_insert_ne; [done|intros ->; congruence..]. }
  rewrite bind_run. erewrite copy_run by exact Hd4. cbn [heap fs rng].
  rewrite bind_run. erewrite setattr_info_run by apply lookup_insert_eq.
  eauto.
Qed.

(** The call with a path given: the existence test, the creation of the
    split when the path is new, then [finish]. *)
Lemma split_call_unfold d ts sh rs p (w : @World FileContent) :
  split_call d ts sh rs (Some p) w
  = ((if bool_decide (is_Some (fs w !! p)) then mret ()
      else create d ts sh rs p) ≫= λ _, finish p d) w.
Proof.
  unfold train_test_split_groupby_trial, finish.
  rewrite !bind_run. unfold mret at 1, M_ret at 1. unfold os_path_exists.
  rewrite !bind_run. by destruct (bool_decide _).
Qed.

Lemma dataset_info_getattr (w : @World FileContent) d info :
  dataset_info w d = Some info → getattr_info d w = (Ok info, w).
Proof.
  unfold dataset_info, getattr_info.
  destruct (heap w !! d) as [[attrs| |]|]; try done.
  destruct (attrs !! "info") as [l|]; try done.
  destruct (heap w !! l) as [[| df |]|]; try done. by intros [= ->].
Qed.

Lemma getattr_info_Ok d (w w' : @World FileContent) info :
  getattr_info d w = (Ok info, w') → dataset_info w d = Some info ∧ w' = w.
Proof.
  unfold getattr_info, dataset_info.
  destruct (heap w !! d) as [[attrs| |]|]; try discriminate.
  destruct (attrs !! "info") as [l|]; try discriminate.
  destruct (heap w !! l) as [[| df |]|]; try discriminate.
  by intros [= -> ->].
Qed.

Lemma dataset_info_obj (w : @World FileContent) d info :
  dataset_info w d = Some info →
  ∃ attrs l, heap w !! d = Some (DatasetObj attrs) ∧
             attrs !! "info" = Some l ∧ heap w !! l = Some (FrameObj info).
Proof.
  unfold dataset_info.
  destruct (heap w !! d) as [[attrs| |]|]; try done.
  destruct (attrs !! "info") as [l|] eqn:Hl; try done.
  destruct (heap w !! l) as [[| df |]|] eqn:Hdf; try done.
  intros [= ->]. eauto.
Qed.

(** What [to_csv] writes for a frame. *)
Definition written (df : DataFrame) : FileContent :=
  to_csv_text (columns df) (cells <$> rows df).

(** The directory after both files are written. *)
Definition split_dir (train_info test_info : DataFrame) : gmap string FileContent :=
  <["test.csv" := written test_info]> (<["train.csv" := written train_info]> ∅).

(** The creation of the split in terms of the enumeration of pairs. *)
Lemma create_run d ts sh rs p (w : @World FileContent) info sc tc :
  fs w !! p = None →
  dataset_info w d = Some info →
  getitem info "subject_id" = Ok sc →
  getitem info "trial_id" = Ok tc →
  create d ts sh rs p w
  = match pairs_split info ts sh rs (list_prod (list_set sc) (list_set tc)) (rng w) with
    | (Raise e, g) =>
        (Raise e, {| fs := <[p := ∅]> (fs w); heap := heap w; rng := g |})
    | (Ok parts, g) =>
        match pd_concat (Some parts.*1), pd_concat (Some parts.*2) with
        | Ok train_info, Ok test_info =>
            (Ok (), {| fs := <[p := split_dir train_info test_info]> (fs w);
                       heap := heap w; rng := g |})
        | _, _ =>
            (Raise TypeError, {| fs := <[p := ∅]> (fs w); heap := heap w; rng := g |})
        end
    end.
Proof.
  intros Hp Hinfo Hsc Htc. unfold create_split.
  rewrite bind_run. unfold os_makedirs at 1. rewrite Hp.
  set (w0 := {| fs := <[p := ∅]> (fs w); heap := heap w; rng := rng w |}).
  rewrite bind_run, (dataset_info_getattr w0 d info) by done.
  rewrite bind_run, Hsc. unfold lift at 1.
  rewrite bind_run, Htc. unfold lift at 1.
  rewrite bind_run, for_each_nested, (loop_run info ts sh rs) by done.
  change (rng w0) with (rng w).
  destruct (pairs_split _ _ _ _ _ _) as [[parts|e] g]; [|done].
  destruct parts as [|[tr te] parts]; [done|].
  cbn [extend fmap list_fmap fst snd pd_concat].
  rewrite bind_run. unfold lift at 1.
  rewrite bind_run. unfold lift at 1.
  rewrite bind_run. unfold to_csv, write_file. cbn [fs heap rng with_rng w0].
  rewrite lookup_insert_eq. cbn [fs heap rng].
  rewrite lookup_insert_eq, !insert_insert_eq. reflexivity.
Qed.

(** A creation that succeeded has read the table and its two columns. *)
Lemma create_Ok_inv d ts sh rs p (w w0 : @World FileContent) u :
  fs w !! p = None →
  create d ts sh rs p w = (Ok u, w0) →
  ∃ info sc tc,
    dataset_info w d = Some info ∧
    getitem info "subject_id" = Ok sc ∧
    getitem info "trial_id" = Ok tc.
Proof.
  intros Hp Hcreate. unfold create_split in Hcreate.
  apply bind_Ok in Hcreate as ([] & wm & Hmk & Hcreate).
  unfold os_makedirs in Hmk. rewrite Hp in Hmk. injection Hmk as <-.
  apply bind_Ok in Hcreate as (info & wi & Hget & Hcreate).
  apply getattr_info_Ok in Hget as [Hinfo ->].
  apply bind_Ok in Hcreate as (sc & w2 & [Hsc ->]%lift_Ok & Hcreate).
  apply bind_Ok in Hcreate as (tc & w3 & [Htc ->]%lift_Ok & _).
  by exists info, sc, tc.
Qed.

(** ** Lists: positional selection, products, filters of concatenations *)

Lemma Forall2_Permutation_l {A B} (R : A → B → Prop) (xs xs' : list A) (ys : list B) :
  xs ≡ₚ xs' → Forall2 R xs ys → ∃ ys', Forall2 R xs' ys' ∧ ys ≡ₚ ys'.
Proof.
  intros Hp. revert ys. induction Hp as [|x xs xs' _ IH|x1 x2 xs|xs1 xs2 xs3 _ IH1 _ IH2];
    intros ys HF.
  - apply Forall2_nil_inv_l in HF as ->. by exists [].
  - apply Forall2_cons_inv_l in HF as (y & ys1 & Hy & HF & ->).
    destruct (IH _ HF) as (ys' & ? & ?). exists (y :: ys'). split; [by constructor|].
    by constructor.
  - apply Forall2_cons_inv_l in HF as (y1 & ys1 & Hy1 & HF & ->).
    apply Forall2_cons_inv_l in HF as (y2 & ys2 & Hy2 & HF & ->).
    exists (y2 :: y1 :: ys2). split; [by repeat constructor|]. apply perm_swap.
  - destruct (IH1 _ HF) as (ys2 & HF2 & ?). destruct (IH2 _ HF2) as (ys3 & ? & ?).
    exists ys3. split; [done|]. by etrans.
Qed.

Lemma Forall2_lookup_seq {A} (l : list A) :
  Forall2 (λ i x, l !! i = Some x) (seq 0 (length l)) l.
Proof.
  apply Forall2_same_length_lookup_2; [by rewrite length_seq|].
  intros i j x [-> _]%lookup_seq Hx. done.
Qed.

Lemma Forall2_lookup_functional {A} (l : list A) (idx : list nat) (rs rs' : list A) :
  Forall2 (λ i x, l !! i = Some x) idx rs →
  Forall2 (λ i x, l !! i = Some x) idx rs' → rs = rs'.
Proof.
  intros H. revert rs'. induction H as [|i x idx rs Hx _ IH]; intros rs' H'.
  - by apply Forall2_nil_inv_l in H' as ->.
  - apply Forall2_cons_inv_l in H' as (x' & rs1 & Hx' & H' & ->).
    f_equal; [congruence | by apply IH].
Qed.

(** Selecting by two index arrays that together are a permutation of
    [0..n-1] yields, together, a permutation of the list. *)
Lemma pick_partition {A} (l : list A) (idx1 idx2 : list nat) (r1 r2 : list A) :
  idx1 ++ idx2 ≡ₚ seq 0 (length l) →
  mapM (λ i, l !! i) idx1 = Some r1 →
  mapM (λ i, l !! i) idx2 = Some r2 →
  r1 ++ r2 ≡ₚ l.
Proof.
  intros Hp H1%mapM_Some H2%mapM_Some.
  assert (H12 : Forall2 (λ i x, l !! i = Some x) (idx1 ++ idx2) (r1 ++ r2))
    by (by apply Forall2_app).
  destruct (Forall2_Permutation_l _ _ _ _ Hp H12) as (l' & Hl' & Hperm).
  by rewrite (Forall2_lookup_functional _ _ _ _ (Forall2_lookup_seq l) Hl').
Qed.

Lemma pick_fmap {A B} (f : A → B) (l : list A) (idx : list nat) (rs : list A) :
  mapM (λ i, l !! i) idx = Some rs →
  mapM (λ i, (f <$> l) !! i) idx = Some (f <$> rs).
Proof.
  rewrite !mapM_Some. intros H. induction H as [|i x idx rs Hx _ IH]; csimpl.
  - constructor.
  - constructor; [|done]. by rewrite list_lookup_fmap, Hx.
Qed.

Lemma pick_elem_of {A} (l : list A) (idx : list nat) (rs : list A) x :
  mapM (λ i, l !! i) idx = Some rs → x ∈ rs → x ∈ l.
Proof.
  rewrite mapM_Some. intros H Hx. induction H as [|i y idx rs Hy _ IH].
  - by apply elem_of_nil in Hx.
  - apply elem_of_cons in Hx as [->|Hx]; [by eapply list_elem_of_lookup_2 | auto].
Qed.

Lemma pick_length {A} (l : list A) (idx : list nat) (rs : list A) :
  mapM (λ i, l !! i) idx = Some rs → length rs = length idx.
Proof. intros H. symmetry. by eapply length_mapM. Qed.

Lemma pick_seq {A} (l : list A) j n :
  j + n ≤ length l →
  mapM (λ i, l !! i) (seq j n) = Some (take n (drop j l)).
Proof.
  intros Hle. apply mapM_Some, Forall2_same_length_lookup_2.
  - rewrite length_seq, length_take, length_drop. lia.
  - intros i k x [-> Hi]%lookup_seq Hx.
    rewrite lookup_take_lt, lookup_drop in Hx by done. done.
Qed.

Lemma NoDup_list_prod {A B} (xs : list A) (ys : list B) :
  NoDup xs → NoDup ys → NoDup (list_prod xs ys).
Proof.
  intros Hxs Hys. induction Hxs as [|x xs Hx _ IH]; simpl; [constructor|].
  apply NoDup_app. split; [|split; [|done]].
  - assert (Inj (=) (=) (λ y : B, (x, y))) by (by intros ?? [=]).
    by apply (NoDup_fmap_2 (λ y, (x, y))).
  - intros [x' y] [y' [[= -> ->] _]]%list_elem_of_fmap Hin.
    apply list_elem_of_In, in_prod_iff in Hin as [Hin%list_elem_of_In _]. done.
Qed.

(** Pieces keyed by distinct keys, each piece made of elements that
    belong to its key only: filtering the concatenation by a key gives
    back the piece of that key. *)
Lemma filter_concat_keyed {K A} (P : K → A → Prop) `{!∀ k a, Decision (P k a)}
    (ks : list K) (xss : list (list A)) (k : K) :
  (∀ k1 k2 a, P k1 a → P k2 a → k1 = k2) →
  NoDup ks →
  Forall2 (λ k' xs, Forall (P k') xs) ks xss →
  (k ∉ ks → filter (P k) (concat xss) = []) ∧
  (∀ i xs, ks !! i = Some k → xss !! i = Some xs →
           filter (P k) (concat xss) = xs).
Proof.
  intros Hfun Hnd HF.
  assert (Hother : ∀ k' xs, k' ≠ k → Forall (P k') xs → filter (P k) xs = []).
  { intros k' xs Hne Hall. induction Hall as [|x xs Hx _ IH]; [done|].
    rewrite filter_cons_False; [done|]. intros Hk. by apply Hne, (Hfun _ _ x). }
  assert (Hsame : ∀ xs, Forall (P k) xs → filter (P k) xs = xs).
  { intros xs Hall. induction Hall as [|x xs Hx _ IH]; [done|].
    by rewrite filter_cons_True, IH. }
  induction HF as [|k' xs ks xss Hxs HF IH]; simpl.
  - split; [done|]. intros i xs Hi. by rewrite lookup_nil in Hi.
  - apply NoDup_cons in Hnd as [Hk' Hnd]. destruct (IH Hnd) as [IHa IHb].
    rewrite filter_app. split.
    + intros Hk. apply not_elem_of_cons in Hk as [Hne Hk].
      by rewrite (Hother k' xs), IHa.
    + intros [|i] ys Hi Hys; simpl in *.
      * injection Hi as ->. injection Hys as ->.
        by rewrite Hsame, IHa, app_nil_r.
      * assert (k' ≠ k).
        { intros ->. apply Hk'. by eapply list_elem_of_lookup_2. }
        by rewrite (Hother k' xs), (IHb i ys).
Qed.

(** ** A call on a new path *)

Lemma finished_info p d (w w' : @World FileContent) a b dir ptr pte attrs l1 l2 :
  finish_facts p d w a b w' dir ptr pte attrs l1 l2 →
  dataset_info w' a = Some (frame_of_csv ptr) ∧
  dataset_info w' b = Some (frame_of_csv pte).
Proof.
  intros F. unfold dataset_info.
  rewrite (fin_a _ _ _ _ _ _ _ _ _ _ _ _ F), (fin_b _ _ _ _ _ _ _ _ _ _ _ _ F).
  rewrite !lookup_insert_eq.
  by rewrite (fin_frame1 _ _ _ _ _ _ _ _ _ _ _ _ F), (fin_frame2 _ _ _ _ _ _ _ _ _ _ _ _ F).
Qed.

(** What a successful call on a path that did not exist has done. *)
Record fresh_facts (d : loc) (ts : TestSize) (sh : bool) (rs : option Z)
    (p : string) (info : DataFrame)
    (w : @World FileContent) (a b : loc) (w' : @World FileContent)
    (sc tc : list Value) (parts : list (DataFrame * DataFrame))
    (train_info test_info : DataFrame)
    (parsed_train parsed_test : list string * list (list Value)) : Prop := {
  ff_subjects : getitem info "subject_id" = Ok sc;
  ff_trials : getitem info "trial_id" = Ok tc;
  ff_pairs : pairs_split info ts sh rs
               (list_prod (list_set sc) (list_set tc)) (rng w)
             = (Ok parts, rng w');
  ff_train : pd_concat (Some parts.*1) = Ok train_info;
  ff_test : pd_concat (Some parts.*2) = Ok test_info;
  ff_fs : fs w' = <[p := split_dir train_info test_info]> (fs w);
  ff_parse_train : read_csv_text (written train_info) = Ok parsed_train;
  ff_parse_test : read_csv_text (written test_info) = Ok parsed_test;
  ff_info_a : dataset_info w' a = Some (frame_of_csv parsed_train);
  ff_info_b : dataset_info w' b = Some (frame_of_csv parsed_test);
  ff_finished :
    finished p d {| fs := fs w'; heap := heap w; rng := rng w' |} a b w'
}.

Lemma split_dir_train T1 T2 : split_dir T1 T2 !! "train.csv" = Some (written T1).
Proof. unfold split_dir. by rewrite lookup_insert_ne, lookup_insert_eq. Qed.

Lemma split_dir_test T1 T2 : split_dir T1 T2 !! "test.csv" = Some (written T2).
Proof. unfold split_dir. by rewrite lookup_insert_eq. Qed.

Lemma fresh_call_inv d ts sh rs p info (w w' : @World FileContent) a b :
  fs w !! p = None →
  dataset_info w d = Some info →
  split_call d ts sh rs (Some p) w = (Ok (a, b), w') →
  ∃ sc tc parts train_info test_info parsed_train parsed_test,
    fresh_facts d ts sh rs p info w a b w'
      sc tc parts train_info test_info parsed_train parsed_test.
Proof.
  intros Hp Hinfo Hcall. rewrite split_call_unfold in Hcall.
  rewrite Hp in Hcall.
  rewrite bool_decide_eq_false_2 in Hcall by (by intros [? ?]).
  apply bind_Ok in Hcall as (u & w1 & Hcreate & Hfin).
  destruct (create_Ok_inv _ _ _ _ _ _ _ _ Hp Hcreate)
    as (info' & sc & tc & Hinfo' & Hsc & Htc).
  assert (info' = info) as -> by congruence.
  rewrite (create_run d ts sh rs p w info sc tc) in Hcreate by done.
  destruct (pairs_split _ _ _ _ _ _) as [[parts|e] g] eqn:Hparts; [|discriminate].
  destruct (pd_concat (Some parts.*1)) as [T1|e] eqn:HT1; [|discriminate].
  destruct (pd_concat (Some parts.*2)) as [T2|e] eqn:HT2; [|discriminate].
  destruct u. injection Hcreate as <-.
  pose proof (finish_inv _ _ _ _ _ _ Hfin) as Hf.
  destruct Hf as (dir & ptr & pte & attrs & l1 & l2 & F).
  pose proof (finished_info _ _ _ _ _ _ _ _ _ _ _ _ F) as [Ha Hb].
  pose proof (fin_fs _ _ _ _ _ _ _ _ _ _ _ _ F) as Hfs.
  pose proof (fin_rng _ _ _ _ _ _ _ _ _ _ _ _ F) as Hrng.
  pose proof (fin_lookup_dir _ _ _ _ _ _ _ _ _ _ _ _ F) as Hdir.
  destruct (fin_parse_train _ _ _ _ _ _ _ _ _ _ _ _ F) as (c1 & Hc1 & Hp1).
  destruct (fin_parse_test _ _ _ _ _ _ _ _ _ _ _ _ F) as (c2 & Hc2 & Hp2).
  simpl in Hfs, Hrng, Hdir. rewrite lookup_insert_eq in Hdir. injection Hdir as <-.
  rewrite split_dir_train in Hc1. rewrite split_dir_test in Hc2.
  injection Hc1 as <-. injection Hc2 as <-.
  exists sc, tc, parts, T1, T2, ptr, pte. split; try done.
  - by rewrite Hrng.
  - rewrite Hfs, Hrng. by exists (split_dir T1 T2), ptr, pte, attrs, l1, l2.
Qed.

Lemma fresh_call_total d ts sh rs p info (w : @World FileContent)
    sc tc parts g train_info test_info parsed_train parsed_test :
  fs w !! p = None →
  dataset_info w d = Some info →
  getitem info "subject_id" = Ok sc →
  getitem info "trial_id" = Ok tc →
  pairs_split info ts sh rs (list_prod (list_set sc) (list_set tc)) (rng w)
  = (Ok parts, g) →
  pd_concat (Some parts.*1) = Ok train_info →
  pd_concat (Some parts.*2) = Ok test_info →
  read_csv_text (written train_info) = Ok parsed_train →
  read_csv_text (written test_info) = Ok parsed_test →
  ∃ a b w', split_call d ts sh rs (Some p) w = (Ok (a, b), w').
Proof.
  intros Hp Hinfo Hsc Htc Hparts HT1 HT2 Hp1 Hp2.
  rewrite split_call_unfold, Hp.
  rewrite bool_decide_eq_false_2 by (by intros [? ?]).
  rewrite bind_run, (create_run d ts sh rs p w info sc tc) by done.
  rewrite Hparts, HT1, HT2.
  destruct (dataset_info_obj _ _ _ Hinfo) as (attrs & l & Hd & _ & _).
  apply (finish_total p d _ (split_dir train_info test_info)
           (written train_info) (written test_info)
           parsed_train parsed_test attrs); simpl;
    auto using split_dir_train, split_dir_test.
  apply lookup_insert_eq.
Qed.

(** ** The pieces of one group *)

(** The cells of a source row once [reset_index] has put its label in
    front of them. *)
Definition tagged (r : Row) : list Value := label r :: cells r.

(** The cells of a frame, row by row. *)
Definition body_of (df : DataFrame) : list (list Value) := cells <$> rows df.

(** The rows of [info] in the group of a pair, tagged. *)
Definition group_cells (ps pt : nat) (info : DataFrame) (st : Value * Value)
  : list (list Value) :=
  tagged <$> filter (row_matches ps pt st.1 st.2) (rows info).

Lemma select_reset_inv info s t cur :
  (select_group info s t ≫= reset_index) = Ok cur →
  ∃ ps pt,
    column_position "subject_id" (columns info) = Some ps ∧
    column_position "trial_id" (columns info) = Some pt ∧
    (reset_index_name (columns info) ∉ columns info) ∧
    columns cur = reset_index_name (columns info) :: columns info ∧
    body_of cur = group_cells ps pt info (s, t).
Proof.
  intros H. apply result_bind_Ok in H as (grp & Hsel & Hreset).
  unfold select_group in Hsel.
  destruct (column_position "subject_id" _) as [ps|]; [|discriminate].
  destruct (column_position "trial_id" _) as [pt|]; [|discriminate].
  injection Hsel as <-. unfold reset_index in Hreset. simpl in Hreset.
  case_bool_decide as Hname; [discriminate|]. injection Hreset as <-.
  exists ps, pt. repeat split; try done.
  unfold body_of, group_cells. simpl. rewrite fmap_imap.
  apply imap_const.
Qed.

(** A piece: the two frames one pair contributes, described by the index
    arrays the split routine returned for it. *)
Record piece (ts : TestSize) (sh : bool) (rs : option Z) (info : DataFrame)
    (ps pt : nat) (st : Value * Value) (part : DataFrame * DataFrame)
    (train_index test_index : list nat) (g g' : RngState) : Prop := {
  piece_split :
    sk_train_test_split (arange (length (group_cells ps pt info st)))
      ts rs sh g = (Ok (train_index, test_index), g');
  piece_columns_train :
    columns part.1 = reset_index_name (columns info) :: columns info;
  piece_columns_test :
    columns part.2 = reset_index_name (columns info) :: columns info;
  piece_train :
    mapM (λ i, group_cells ps pt info st !! i) train_index = Some (body_of part.1);
  piece_test :
    mapM (λ i, group_cells ps pt info st !! i) test_index = Some (body_of part.2)
}.

Definition is_piece (ts : TestSize) (sh : bool) (rs : option Z)
    (info : DataFrame) (ps pt : nat) (st : Value * Value)
    (part : DataFrame * DataFrame) : Prop :=
  ∃ train_index test_index g g',
    piece ts sh rs info ps pt st part train_index test_index g g'.

Lemma iloc_inv cur idx df :
  iloc cur idx = Ok df →
  columns df = columns cur ∧
  mapM (λ i, body_of cur !! i) idx = Some (body_of df).
Proof.
  unfold iloc. destruct (mapM _ idx) as [rs'|] eqn:Hpick; [|discriminate].
  intros [= <-]. split; [done|]. by apply pick_fmap.
Qed.

Lemma one_inv info ts sh rs st g part g' :
  one info ts sh rs st g = (Ok part, g') →
  ∃ ps pt train_index test_index,
    column_position "subject_id" (columns info) = Some ps ∧
    column_position "trial_id" (columns info) = Some pt ∧
    (reset_index_name (columns info) ∉ columns info) ∧
    piece ts sh rs info ps pt st part train_index test_index g g'.
Proof.
  unfold split_one. destruct st as [s t]. cbn [fst snd]. intros H.
  destruct (select_group info s t ≫= reset_index) as [cur|e] eqn:Hcur;
    [|discriminate].
  destruct (sk_train_test_split _ _ _ _ _) as [[[tr_i te_i]|e] g1] eqn:Hsk;
    [|discriminate].
  destruct (iloc cur tr_i) as [tr|e] eqn:Htr; [|discriminate].
  destruct (iloc cur te_i) as [te|e] eqn:Hte; [|discriminate].
  injection H as <- <-.
  apply select_reset_inv in Hcur as (ps & pt & Hps & Hpt & Hname & Hcols & Hbody).
  apply iloc_inv in Htr as [Hc1 Hb1]. apply iloc_inv in Hte as [Hc2 Hb2].
  exists ps, pt, tr_i, te_i. repeat split; try done; simpl.
  - replace (length (group_cells ps pt info (s, t))) with (len cur); [done|].
    unfold len. rewrite <- Hbody. unfold body_of. by rewrite length_fmap.
  - congruence.
  - congruence.
  - by rewrite <- Hbody.
  - by rewrite <- Hbody.
Qed.

Lemma pairs_pieces info ts sh rs pairs g parts g' ps pt :
  column_position "subject_id" (columns info) = Some ps →
  column_position "trial_id" (columns info) = Some pt →
  pairs_split info ts sh rs pairs g = (Ok parts, g') →
  Forall2 (is_piece ts sh rs info ps pt) pairs parts.
Proof.
  intros Hps Hpt. revert g parts. induction pairs as [|st pairs IH]; intros g parts H;
    simpl in H.
  - injection H as <- <-. constructor.
  - destruct (one info ts sh rs st g) as [[part|e] g1] eqn:Hone; [|discriminate].
    destruct (pairs_split info ts sh rs pairs g1) as [[parts'|e] g2] eqn:Hrest;
      [|discriminate].
    injection H as <- <-. constructor; [|by eapply IH].
    apply one_inv in Hone as (ps' & pt' & tr_i & te_i & Hps' & Hpt' & _ & Hpiece).
    assert (ps' = ps) as -> by congruence. assert (pt' = pt) as -> by congruence.
    by exists tr_i, te_i, g, g1.
Qed.

(** All the frames the loops accumulate have the same header. *)
Lemma pieces_same_columns info ts sh rs pairs g parts g' :
  pairs_split info ts sh rs pairs g = (Ok parts, g') →
  Forall (λ part,
            columns part.1 = reset_index_name (columns info) :: columns info ∧
            columns part.2 = reset_index_name (columns info) :: columns info)
         parts.
Proof.
  revert g parts. induction pairs as [|st pairs IH]; intros g parts H; simpl in H.
  - injection H as <- <-. constructor.
  - destruct (one info ts sh rs st g) as [[part|e] g1] eqn:Hone; [|discriminate].
    destruct (pairs_split info ts sh rs pairs g1) as [[parts'|e] g2] eqn:Hrest;
      [|discriminate].
    injection H as <- <-. constructor; [|by eapply IH].
    apply one_inv in Hone as (ps & pt & tr_i & te_i & _ & _ & _ & [_ Hc1 Hc2 _ _]).
    done.
Qed.

(** A non-empty enumeration that succeeded tells the positions of the
    two columns. *)
Lemma pairs_columns info ts sh rs pairs g parts g' :
  pairs ≠ [] →
  pairs_split info ts sh rs pairs g = (Ok parts, g') →
  ∃ ps pt,
    column_position "subject_id" (columns info) = Some ps ∧
    column_position "trial_id" (columns info) = Some pt ∧
    reset_index_name (columns info) ∉ columns info.
Proof.
  destruct pairs as [|st pairs]; [done|]. intros _ H. simpl in H.
  destruct (one info ts sh rs st g) as [[part|e] g1] eqn:Hone; [|discriminate].
  apply one_inv in Hone as (ps & pt & ? & ? & ? & ? & ? & ?). eauto.
Qed.

(** ** Assumptions on the libraries *)

(** The CSV round trip loses nothing: reading what [to_csv] wrote gives
    back the header and the cells. *)
Definition csv_lossless : Prop :=
  ∀ cols body, read_csv_text (to_csv_text cols body) = Ok (cols, body).

(** [list(set(xs))] has the elements of [xs], each once. *)
Definition set_enumeration : Prop :=
  ∀ xs, NoDup (list_set xs) ∧ ∀ x, x ∈ list_set xs ↔ x ∈ xs.

(** The split routine returns two index arrays that together hold every
    entry of the array it was given exactly once. *)
Definition split_is_partition : Prop :=
  ∀ idx ts rs sh g train_index test_index g',
    sk_train_test_split idx ts rs sh g = (Ok (train_index, test_index), g') →
    train_index ++ test_index ≡ₚ idx.

(** ** The tables of the returned datasets *)

Lemma fmap_filter_comp {A B} (f : A → B) (P : B → Prop) `{!∀ y, Decision (P y)}
    (l : list A) :
  f <$> filter (λ x, P (f x)) l = filter P (f <$> l).
Proof.
  induction l as [|x l IH]; [done|]. csimpl.
  rewrite !filter_cons. destruct (decide (P (f x))); csimpl; by rewrite IH.
Qed.

Lemma fmap_concat {A B} (f : A → B) (ls : list (list A)) :
  f <$> concat ls = concat ((λ l : list A, f <$> l) <$> ls).
Proof. induction ls as [|l ls IH]; [done|]. csimpl. by rewrite fmap_app, IH. Qed.

Lemma body_relabel rs : cells <$> relabel rs = cells <$> rs.
Proof. unfold relabel. rewrite fmap_imap. apply imap_const. Qed.

Lemma body_frame_of_csv cols body : body_of (frame_of_csv (cols, body)) = body.
Proof.
  unfold body_of, frame_of_csv. simpl. rewrite fmap_imap.
  rewrite (imap_const id). apply list_fmap_id.
Qed.

Lemma pd_concat_inv frames df :
  pd_concat (Some frames) = Ok df →
  ∃ f fs, frames = f :: fs ∧ columns df = columns f ∧
          body_of df = concat (body_of <$> frames).
Proof.
  destruct frames as [|f fs]; [discriminate|]. unfold pd_concat. intros H.
  assert (df = {| columns := columns f;
                  rows := relabel (concat (rows <$> f :: fs)) |}) as ->
    by congruence.
  exists f, fs. repeat split. unfold body_of at 1. cbn [rows].
  rewrite body_relabel, fmap_concat. f_equal.
  by rewrite <- list_fmap_compose.
Qed.

Lemma reset_index_name_neq cols name :
  name = "subject_id" ∨ name = "trial_id" → reset_index_name cols ≠ name.
Proof.
  unfold reset_index_name. intros [-> | ->]; by case_bool_decide.
Qed.

(** The positions of the two id columns in a table that has the reset
    index in front. *)
Lemma column_position_shift cols name p :
  name = "subject_id" ∨ name = "trial_id" →
  column_position name cols = Some p →
  column_position name (reset_index_name cols :: cols) = Some (S p).
Proof.
  intros Hname Hp. simpl.
  destruct (decide (reset_index_name cols = name)) as [Heq|_].
  - by apply reset_index_name_neq in Heq.
  - by rewrite Hp.
Qed.

(** What the two returned tables are when the CSV round trip is
    lossless: the header with the reset index in front, and the pieces
    of the pairs one after the other. *)
Record view (d : loc) (ts : TestSize) (sh : bool) (rs : option Z)
    (info : DataFrame) (w : @World FileContent) (a b : loc)
    (w' : @World FileContent)
    (ps pt : nat) (sc tc : list Value) (parts : list (DataFrame * DataFrame))
    (out_train out_test : DataFrame) : Prop := {
  view_ps : column_position "subject_id" (columns info) = Some ps;
  view_pt : column_position "trial_id" (columns info) = Some pt;
  view_subjects : getitem info "subject_id" = Ok sc;
  view_trials : getitem info "trial_id" = Ok tc;
  view_pairs : pairs_split info ts sh rs
                 (list_prod (list_set sc) (list_set tc)) (rng w)
               = (Ok parts, rng w');
  view_pieces : Forall2 (is_piece ts sh rs info ps pt)
                  (list_prod (list_set sc) (list_set tc)) parts;
  view_a : dataset_info w' a = Some out_train;
  view_b : dataset_info w' b = Some out_test;
  view_columns_train :
    columns out_train = reset_index_name (columns info) :: columns info;
  view_columns_test :
    columns out_test = reset_index_name (columns info) :: columns info;
  view_body_train : body_of out_train = concat ((λ part, body_of part.1) <$> parts);
  view_body_test : body_of out_test = concat ((λ part, body_of part.2) <$> parts)
}.

Lemma fresh_call_view d ts sh rs p info (w w' : @World FileContent) a b :
  csv_lossless →
  fs w !! p = None →
  dataset_info w d = Some info →
  split_call d ts sh rs (Some p) w = (Ok (a, b), w') →
  ∃ ps pt sc tc parts out_train out_test,
    view d ts sh rs info w a b w' ps pt sc tc parts out_train out_test.
Proof.
  intros Hcsv Hp Hinfo Hcall.
  destruct (fresh_call_inv _ _ _ _ _ _ _ _ _ _ Hp Hinfo Hcall)
    as (sc & tc & parts & T1 & T2 & ptr & pte & F).
  destruct F as [Hsc Htc Hpairs HT1 HT2 Hfs Hp1 Hp2 Ha Hb _].
  apply pd_concat_inv in HT1 as (f1 & fs1 & Hparts1 & Hc1 & Hb1).
  apply pd_concat_inv in HT2 as (f2 & fs2 & Hparts2 & Hc2 & Hb2).
  destruct parts as [|part0 parts0] eqn:Eparts; [discriminate|]. rewrite <- Eparts in *.
  assert (Hne : list_prod (list_set sc) (list_set tc) ≠ []).
  { intros Heq. rewrite Heq in Hpairs. simpl in Hpairs. subst parts. discriminate. }
  destruct (pairs_columns _ _ _ _ _ _ _ _ Hne Hpairs) as (ps & pt & Hps & Hpt & _).
  pose proof (pairs_pieces _ _ _ _ _ _ _ _ _ _ Hps Hpt Hpairs) as Hpieces.
  unfold written in Hp1, Hp2. rewrite Hcsv in Hp1, Hp2.
  injection Hp1 as <-. injection Hp2 as <-.
  assert (Hhead : is_piece ts sh rs info ps pt
                    (hd (VInt 0, VInt 0) (list_prod (list_set sc) (list_set tc))) part0).
  { rewrite Eparts in Hpieces. inversion Hpieces; subst. done. }
  destruct Hhead as (tr_i & te_i & g & g' & Hpiece).
  exists ps, pt, sc, tc, parts,
    (frame_of_csv (columns T1, cells <$> rows T1)),
    (frame_of_csv (columns T2, cells <$> rows T2)).
  split; try done.
  - simpl. rewrite Hc1. rewrite Eparts in Hparts1. injection Hparts1 as <- _.
    apply (piece_columns_train _ _ _ _ _ _ _ _ _ _ _ _ Hpiece).
  - simpl. rewrite Hc2. rewrite Eparts in Hparts2. injection Hparts2 as <- _.
    apply (piece_columns_test _ _ _ _ _ _ _ _ _ _ _ _ Hpiece).
  - rewrite body_frame_of_csv. fold (body_of T1). rewrite Hb1.
    by rewrite <- list_fmap_compose.
  - rewrite body_frame_of_csv. fold (body_of T2). rewrite Hb2.
    by rewrite <- list_fmap_compose.
Qed.

(** ** Groups in the returned tables *)

Lemma cells_match_tagged ps pt s t r :
  cells_match (S ps) (S pt) s t (tagged r) ↔ row_matches ps pt s t r.
Proof. done. Qed.

Lemma group_cells_match ps pt info st c :
  c ∈ group_cells ps pt info st → cells_match (S ps) (S pt) st.1 st.2 c.
Proof.
  unfold group_cells. intros (r & -> & Hr)%list_elem_of_fmap.
  apply list_elem_of_filter in Hr as [Hr _]. by apply cells_match_tagged.
Qed.

Lemma piece_cells_match ts sh rs info ps pt st part :
  is_piece ts sh rs info ps pt st part →
  Forall (cells_match (S ps) (S pt) st.1 st.2) (body_of part.1) ∧
  Forall (cells_match (S ps) (S pt) st.1 st.2) (body_of part.2).
Proof.
  intros (tr_i & te_i & g & g' & [_ _ _ Htr Hte]).
  split; apply Forall_forall; intros c Hc; apply (group_cells_match ps pt info).
  - exact (pick_elem_of _ _ _ _ Htr Hc).
  - exact (pick_elem_of _ _ _ _ Hte Hc).
Qed.

Lemma cells_match_functional ps pt (st1 st2 : Value * Value) c :
  cells_match ps pt st1.1 st1.2 c → cells_match ps pt st2.1 st2.2 c → st1 = st2.
Proof.
  destruct st1, st2. unfold cells_match. simpl. intros [? ?] [? ?].
  f_equal; congruence.
Qed.

(** A pair whose group has a row is in the enumeration. *)
Lemma group_in_enumeration info ps pt sc tc s t :
  set_enumeration →
  column_position "subject_id" (columns info) = Some ps →
  column_position "trial_id" (columns info) = Some pt →
  getitem info "subject_id" = Ok sc →
  getitem info "trial_id" = Ok tc →
  group_cells ps pt info (s, t) ≠ [] →
  (s, t) ∈ list_prod (list_set sc) (list_set tc).
Proof.
  intros Hset Hps Hpt Hsc Htc Hne. unfold getitem in Hsc, Htc.
  rewrite Hps in Hsc. rewrite Hpt in Htc. injection Hsc as <-. injection Htc as <-.
  unfold group_cells in Hne. simpl in Hne.
  destruct (filter (row_matches ps pt s t) (rows info)) as [|r rest] eqn:Hf; [done|].
  assert (Hr : r ∈ filter (row_matches ps pt s t) (rows info))
    by (rewrite Hf; apply list_elem_of_here).
  apply list_elem_of_filter in Hr as [[Hs Ht] Hr].
  apply list_elem_of_In, in_prod_iff. split; apply list_elem_of_In.
  - apply (Hset _), list_elem_of_omap. eauto.
  - apply (Hset _), list_elem_of_omap. eauto.
Qed.

(** The rows of a pair in the two returned tables. *)
Lemma output_group d ts sh rs info (w w' : @World FileContent) a b
    ps pt sc tc parts out_train out_test st :
  set_enumeration →
  view d ts sh rs info w a b w' ps pt sc tc parts out_train out_test →
  (∃ part,
      is_piece ts sh rs info ps pt st part ∧
      filter (cells_match (S ps) (S pt) st.1 st.2) (body_of out_train)
      = body_of part.1 ∧
      filter (cells_match (S ps) (S pt) st.1 st.2) (body_of out_test)
      = body_of part.2) ∨
  (group_cells ps pt info st = [] ∧
   filter (cells_match (S ps) (S pt) st.1 st.2) (body_of out_train) = [] ∧
   filter (cells_match (S ps) (S pt) st.1 st.2) (body_of out_test) = []).
Proof.
  intros Hset [Hps Hpt Hsc Htc Hpairs Hpieces _ _ _ _ Hb1 Hb2].
  set (pairs := list_prod (list_set sc) (list_set tc)) in *.
  assert (Hnd : NoDup pairs).
  { apply NoDup_list_prod; apply Hset. }
  set (P := λ (k : Value * Value) c, cells_match (S ps) (S pt) k.1 k.2 c).
  assert (HF1 : Forall2 (λ k xs, Forall (P k) xs) pairs
                  ((λ part, body_of part.1) <$> parts)).
  { apply Forall2_fmap_r. eapply Forall2_impl; [exact Hpieces|].
    intros k part Hk. by apply (piece_cells_match _ _ _ _ _ _ _ _ Hk). }
  assert (HF2 : Forall2 (λ k xs, Forall (P k) xs) pairs
                  ((λ part, body_of part.2) <$> parts)).
  { apply Forall2_fmap_r. eapply Forall2_impl; [exact Hpieces|].
    intros k part Hk. by apply (piece_cells_match _ _ _ _ _ _ _ _ Hk). }
  assert (Hfun : ∀ k1 k2 c, P k1 c → P k2 c → k1 = k2).
  { intros k1 k2 c. apply cells_match_functional. }
  destruct (filter_concat_keyed P pairs _ st Hfun Hnd HF1) as [Hout1 Hin1].
  destruct (filter_concat_keyed P pairs _ st Hfun Hnd HF2) as [Hout2 Hin2].
  rewrite Hb1, Hb2.
  destruct (decide (st ∈ pairs)) as [Hin|Hout].
  - left. apply list_elem_of_lookup in Hin as [i Hi].
    destruct (Forall2_lookup_l _ _ _ _ _ Hpieces Hi) as (part & Hpart & Hpiece).
    exists part. split; [done|]. split.
    + apply (Hin1 i); [done|]. by rewrite list_lookup_fmap, Hpart.
    + apply (Hin2 i); [done|]. by rewrite list_lookup_fmap, Hpart.
  - right. split; [|split; auto].
    destruct (decide (group_cells ps pt info st = [])) as [|Hne]; [done|].
    exfalso. apply Hout. destruct st as [s t].
    by apply (group_in_enumeration info ps pt).
Qed.

(** Selecting a group from a table that has the reset index in front. *)
Lemma select_group_output info ps pt out s t :
  column_position "subject_id" (columns info) = Some ps →
  column_position "trial_id" (columns info) = Some pt →
  columns out = reset_index_name (columns info) :: columns info →
  ∃ grp, select_group out s t = Ok grp ∧
         body_of grp = filter (cells_match (S ps) (S pt) s t) (body_of out).
Proof.
  intros Hps Hpt Hcols. unfold select_group. rewrite Hcols.
  rewrite (column_position_shift _ "subject_id" ps), (column_position_shift _ "trial_id" pt)
    by auto.
  eexists. split; [done|]. unfold body_of. simpl.
  apply (fmap_filter_comp cells (cells_match (S ps) (S pt) s t)).
Qed.

Lemma select_group_source info ps pt s t :
  column_position "subject_id" (columns info) = Some ps →
  column_position "trial_id" (columns info) = Some pt →
  ∃ grp, select_group info s t = Ok grp ∧
         tagged <$> rows grp = group_cells ps pt info (s, t).
Proof.
  intros Hps Hpt. unfold select_group. rewrite Hps, Hpt. eexists. split; done.
Qed.

(** The first cell of each row of a returned table: the label the row
    had in the source table. *)
Definition original_labels (df : DataFrame) : list Value :=
  omap head (body_of df).

Lemma omap_head_tagged (rs : list Row) :
  omap head (tagged <$> rs) = label <$> rs.
Proof. induction rs as [|r rs IH]; [done|]. csimpl. by rewrite IH. Qed.

(** ** The partition of every group *)

Lemma piece_partition ts sh rs info ps pt st part :
  split_is_partition →
  is_piece ts sh rs info ps pt st part →
  body_of part.1 ++ body_of part.2 ≡ₚ group_cells ps pt info st.
Proof.
  intros Hsplit (tr_i & te_i & g & g' & [Hsk _ _ Htr Hte]).
  apply Hsplit in Hsk. by eapply pick_partition.
Qed.

(** C1: on a split path that does not exist yet, for every pair of a
    subject and a trial, the rows of the pair in the train table and
    the rows of the pair in the test table are, taken together, a
    rearrangement of the rows of the pair in the source table: every
    row of the group is in exactly one of the two outputs.  The same
    holds of the row identities (the labels the rows had in the source
    table, kept in the first column), and when these labels are
    distinct no label is on both sides.  The split routine is assumed
    to return a partition of the indices it is given, the set
    enumeration to list each id once, and the CSV round trip to be
    lossless. *)
Theorem group_disjoint_cover d ts sh rs p info (w w' : @World FileContent) a b s t :
  csv_lossless → set_enumeration → split_is_partition →
  fs w !! p = None →
  dataset_info w d = Some info →
  split_call d ts sh rs (Some p) w = (Ok (a, b), w') →
  ∃ grp out_train out_test grp_train grp_test,
    select_group info s t = Ok grp ∧
    dataset_info w' a = Some out_train ∧
    dataset_info w' b = Some out_test ∧
    select_group out_train s t = Ok grp_train ∧
    select_group out_test s t = Ok grp_test ∧
    body_of grp_train ++ body_of grp_test ≡ₚ tagged <$> rows grp ∧
    original_labels grp_train ++ original_labels grp_test ≡ₚ label <$> rows grp ∧
    (NoDup (label <$> rows grp) →
     ∀ x, x ∈ original_labels grp_train → x ∉ original_labels grp_test).
Proof.
  intros Hcsv Hset Hsplit Hp Hinfo Hcall.
  destruct (fresh_call_view _ _ _ _ _ _ _ _ _ _ Hcsv Hp Hinfo Hcall)
    as (ps & pt & sc & tc & parts & out1 & out2 & V).
  pose proof (output_group _ _ _ _ _ _ _ _ _ _ _ _ _ _ _ _ (s, t) Hset V) as Hgroup.
  destruct V as [Hps Hpt _ _ _ _ Ha Hb Hc1 Hc2 _ _].
  destruct (select_group_source info ps pt s t Hps Hpt) as (grp & Hgrp & Hrows).
  destruct (select_group_output info ps pt out1 s t Hps Hpt Hc1) as (g1 & Hg1 & Hb1).
  destruct (select_group_output info ps pt out2 s t Hps Hpt Hc2) as (g2 & Hg2 & Hb2).
  exists grp, out1, out2, g1, g2.
  assert (Hperm : body_of g1 ++ body_of g2 ≡ₚ tagged <$> rows grp).
  { rewrite Hb1, Hb2, Hrows. simpl in Hgroup.
    destruct Hgroup as [(part & Hpiece & -> & ->) | (-> & -> & ->)]; [|done].
    by eapply piece_partition. }
  assert (Hlabels : original_labels g1 ++ original_labels g2 ≡ₚ label <$> rows grp).
  { unfold original_labels. rewrite <- omap_app, Hperm. by rewrite omap_head_tagged. }
  repeat split; try done.
  intros Hnd x Hx1 Hx2. rewrite <- Hlabels in Hnd.
  apply NoDup_app in Hnd as (_ & Hdisj & _). by apply (Hdisj x).
Qed.

(** ** Order and size of the two sides of a group *)

(** C3: without shuffling, for a group whose ten rows are [r0..r9] in
    the order of the source table and a test size of 0.2, the rows of
    the group in the train table are [r0..r7] and those in the test
    table are [r8; r9], in that order.  What the split routine answers
    for ten indices, a test size of 0.2 and no shuffling (the first
    eight, then the last two) is assumed of it. *)
Theorem no_shuffle_keeps_order d rs p info (w w' : @World FileContent) a b s t grp :
  csv_lossless → set_enumeration →
  (∀ g train_index test_index g',
      sk_train_test_split (arange 10) test_size_default rs false g
      = (Ok (train_index, test_index), g') →
      train_index = seq 0 8 ∧ test_index = [8; 9]) →
  fs w !! p = None →
  dataset_info w d = Some info →
  select_group info s t = Ok grp →
  len grp = 10 →
  split_call d test_size_default false rs (Some p) w = (Ok (a, b), w') →
  ∃ out_train out_test grp_train grp_test,
    dataset_info w' a = Some out_train ∧
    dataset_info w' b = Some out_test ∧
    select_group out_train s t = Ok grp_train ∧
    select_group out_test s t = Ok grp_test ∧
    body_of grp_train = tagged <$> take 8 (rows grp) ∧
    body_of grp_test = tagged <$> drop 8 (rows grp).
Proof.
  intros Hcsv Hset Hsk Hp Hinfo Hgrp Hlen Hcall.
  destruct (fresh_call_view _ _ _ _ _ _ _ _ _ _ Hcsv Hp Hinfo Hcall)
    as (ps & pt & sc & tc & parts & out1 & out2 & V).
  pose proof (output_group _ _ _ _ _ _ _ _ _ _ _ _ _ _ _ _ (s, t) Hset V) as Hgroup.
  destruct V as [Hps Hpt _ _ _ _ Ha Hb Hc1 Hc2 _ _].
  destruct (select_group_source info ps pt s t Hps Hpt) as (grp' & Hgrp' & Hrows).
  assert (grp' = grp) as -> by congruence.
  destruct (select_group_output info ps pt out1 s t Hps Hpt Hc1) as (g1 & Hg1 & Hb1).
  destruct (select_group_output info ps pt out2 s t Hps Hpt Hc2) as (g2 & Hg2 & Hb2).
  exists out1, out2, g1, g2. repeat split; try done.
  all: rewrite ?Hb1, ?Hb2; simpl in Hgroup.
  all: assert (Hgc : length (group_cells ps pt info (s, t)) = 10)
         by (rewrite <- Hrows, length_fmap; exact Hlen).
  all: destruct Hgroup as [(part & Hpiece & Hf1 & Hf2) | (Hnil & _ & _)];
         [|rewrite Hnil in Hgc; discriminate].
  all: rewrite ?Hf1, ?Hf2.
  all: destruct Hpiece as (tr_i & te_i & g & g' & [Hsplit _ _ Htr Hte]).
  all: rewrite Hgc in Hsplit; apply Hsk in Hsplit as [-> ->].
  - rewrite pick_seq in Htr by lia. injection Htr as <-.
    by rewrite drop_0, <- Hrows, fmap_take.
  - change [8; 9] with (seq 8 2) in Hte.
    rewrite pick_seq in Hte by lia. injection Hte as <-.
    rewrite take_ge by (rewrite length_drop; lia).
    by rewrite <- Hrows, fmap_drop.
Qed.

(** C5: for every group that has rows, the numbers of its rows in the
    train and in the test table are the lengths of the two index arrays
    the split routine returned for the indices [0..n-1] of the group
    and the given test size.  In particular, when the routine answers
    eight and two indices for ten indices and a test size of 0.2, a
    group of ten rows has eight rows in the train table and two in the
    test table. *)
Theorem group_sizes_from_split d ts sh rs p info (w w' : @World FileContent)
    a b s t grp :
  csv_lossless → set_enumeration →
  fs w !! p = None →
  dataset_info w d = Some info →
  select_group info s t = Ok grp →
  rows grp ≠ [] →
  split_call d ts sh rs (Some p) w = (Ok (a, b), w') →
  ∃ out_train out_test grp_train grp_test train_index test_index g g',
    dataset_info w' a = Some out_train ∧
    dataset_info w' b = Some out_test ∧
    select_group out_train s t = Ok grp_train ∧
    select_group out_test s t = Ok grp_test ∧
    sk_train_test_split (arange (len grp)) ts rs sh g
    = (Ok (train_index, test_index), g') ∧
    len grp_train = length train_index ∧
    len grp_test = length test_index ∧
    (len grp = 10 → ts = test_size_default →
     (∀ g0 tr te g1,
         sk_train_test_split (arange 10) test_size_default rs sh g0
         = (Ok (tr, te), g1) → length tr = 8 ∧ length te = 2) →
     len grp_train = 8 ∧ len grp_test = 2).
Proof.
  intros Hcsv Hset Hp Hinfo Hgrp Hne Hcall.
  destruct (fresh_call_view _ _ _ _ _ _ _ _ _ _ Hcsv Hp Hinfo Hcall)
    as (ps & pt & sc & tc & parts & out1 & out2 & V).
  pose proof (output_group _ _ _ _ _ _ _ _ _ _ _ _ _ _ _ _ (s, t) Hset V) as Hgroup.
  destruct V as [Hps Hpt _ _ _ _ Ha Hb Hc1 Hc2 _ _].
  destruct (select_group_source info ps pt s t Hps Hpt) as (grp' & Hgrp' & Hrows).
  assert (grp' = grp) as -> by congruence.
  destruct (select_group_output info ps pt out1 s t Hps Hpt Hc1) as (g1 & Hg1 & Hb1).
  destruct (select_group_output info ps pt out2 s t Hps Hpt Hc2) as (g2 & Hg2 & Hb2).
  simpl in Hgroup.
  destruct Hgroup as [(part & Hpiece & Hf1 & Hf2) | (Hnil & _ & _)]; cycle 1.
  { exfalso. rewrite <- Hrows in Hnil. by apply fmap_nil_inv in Hnil. }
  destruct Hpiece as (tr_i & te_i & g & g' & [Hsplit _ _ Htr Hte]).
  assert (Hgc : length (group_cells ps pt info (s, t)) = len grp)
    by (by rewrite <- Hrows, length_fmap).
  rewrite Hgc in Hsplit.
  assert (L1 : len g1 = length tr_i).
  { unfold len. rewrite <- (length_fmap cells). fold (body_of g1).
    rewrite Hb1, Hf1. by eapply pick_length. }
  assert (L2 : len g2 = length te_i).
  { unfold len. rewrite <- (length_fmap cells). fold (body_of g2).
    rewrite Hb2, Hf2. by eapply pick_length. }
  exists out1, out2, g1, g2, tr_i, te_i, g, g'. split_and!; try done.
  intros Hten -> Hcount. rewrite Hten in Hsplit.
  apply Hcount in Hsplit as [? ?]. split; congruence.
Qed.

(** ** Columns and cells of the returned tables *)

Lemma elem_of_concat {A} (ls : list (list A)) (x : A) :
  x ∈ concat ls ↔ ∃ l, x ∈ l ∧ l ∈ ls.
Proof.
  rewrite list_elem_of_In, in_concat. split; intros (l & H1 & H2); exists l.
  - by rewrite !list_elem_of_In.
  - by rewrite <- !list_elem_of_In.
Qed.

Lemma piece_cells_source ts sh rs info ps pt st part c :
  is_piece ts sh rs info ps pt st part →
  c ∈ body_of part.1 ++ body_of part.2 →
  ∃ r, r ∈ rows info ∧ c = label r :: cells r.
Proof.
  intros (tr_i & te_i & g & g' & [_ _ _ Htr Hte]) Hc.
  assert (Hin : c ∈ group_cells ps pt info st).
  { apply elem_of_app in Hc as [Hc|Hc].
    - exact (pick_elem_of _ _ _ _ Htr Hc).
    - exact (pick_elem_of _ _ _ _ Hte Hc). }
  unfold group_cells in Hin. apply list_elem_of_fmap in Hin as (r & -> & Hr).
  apply list_elem_of_filter in Hr as [_ Hr]. by exists r.
Qed.

(** C4, as the code has it: the header of each returned table is the
    header of the source table, names and order unchanged, with one
    column added in front, named [index] (or [level_0] when the source
    has a column [index] already); in every row of the returned tables
    that first cell is the label of a row of the source table and the
    cells after it are exactly the cells of that row.  The CSV round
    trip is assumed lossless. *)
Theorem output_columns_and_cells d ts sh rs p info (w w' : @World FileContent) a b :
  csv_lossless →
  fs w !! p = None →
  dataset_info w d = Some info →
  split_call d ts sh rs (Some p) w = (Ok (a, b), w') →
  ∃ out_train out_test,
    dataset_info w' a = Some out_train ∧
    dataset_info w' b = Some out_test ∧
    columns out_train = reset_index_name (columns info) :: columns info ∧
    columns out_test = reset_index_name (columns info) :: columns info ∧
    (∀ c, c ∈ body_of out_train ++ body_of out_test →
          ∃ r, r ∈ rows info ∧ c = label r :: cells r).
Proof.
  intros Hcsv Hp Hinfo Hcall.
  destruct (fresh_call_view _ _ _ _ _ _ _ _ _ _ Hcsv Hp Hinfo Hcall)
    as (ps & pt & sc & tc & parts & out1 & out2 & V).
  destruct V as [_ _ _ _ _ Hpieces Ha Hb Hc1 Hc2 Hb1 Hb2].
  exists out1, out2. repeat split; try done.
  intros c Hc. rewrite Hb1, Hb2 in Hc.
  assert (∃ part, part ∈ parts ∧ c ∈ body_of part.1 ++ body_of part.2)
    as (part & Hpart & Hcp).
  { apply elem_of_app in Hc as [Hc|Hc];
      apply elem_of_concat in Hc as (xs & Hcx & Hxs);
      apply list_elem_of_fmap in Hxs as (part & -> & Hpart);
      exists part; (split; [done|]); apply elem_of_app; auto. }
  apply list_elem_of_lookup in Hpart as [i Hi].
  destruct (Forall2_lookup_r _ _ _ _ _ Hpieces Hi) as (st & _ & Hpiece).
  by eapply piece_cells_source.
Qed.

(** ** The enumeration of the cross product *)

(** C8: on a split path that does not exist yet, the nested loops with
    their accumulators compute what the enumeration of the cross
    product computes: the distinct subjects and the distinct trials are
    listed separately, every pair of the two lists is filtered and
    split in turn, and the train (test) table written to the split
    directory is the concatenation of the train (test) pieces of the
    pairs in the order of that enumeration. *)
Theorem split_follows_cross_product d ts sh rs p info (w w' : @World FileContent) a b :
  fs w !! p = None →
  dataset_info w d = Some info →
  split_call d ts sh rs (Some p) w = (Ok (a, b), w') →
  ∃ sc tc parts train_info test_info,
    getitem info "subject_id" = Ok sc ∧
    getitem info "trial_id" = Ok tc ∧
    pairs_split info ts sh rs (list_prod (list_set sc) (list_set tc)) (rng w)
    = (Ok parts, rng w') ∧
    cross info ts sh rs (rng w) = (Ok (train_info, test_info), rng w') ∧
    fs w' !! p = Some (split_dir train_info test_info) ∧
    body_of train_info = concat ((λ part, body_of part.1) <$> parts) ∧
    body_of test_info = concat ((λ part, body_of part.2) <$> parts).
Proof.
  intros Hp Hinfo Hcall.
  destruct (fresh_call_inv _ _ _ _ _ _ _ _ _ _ Hp Hinfo Hcall)
    as (sc & tc & parts & T1 & T2 & ptr & pte & F).
  destruct F as [Hsc Htc Hpairs HT1 HT2 Hfs _ _ _ _ _].
  exists sc, tc, parts, T1, T2. split_and!; try done.
  - unfold cross_product_split. rewrite Hsc, Htc, Hpairs, HT1, HT2. done.
  - rewrite Hfs. apply lookup_insert_eq.
  - apply pd_concat_inv in HT1 as (f & fs' & _ & _ & ->).
    by rewrite <- list_fmap_compose.
  - apply pd_concat_inv in HT2 as (f & fs' & _ & _ & ->).
    by rewrite <- list_fmap_compose.
Qed.

(** ** The cache *)

(** What it is for a frame to be the one read from a parsed file: the
    header of the file, its cells row by row, and a fresh range index. *)
Definition holds_parsed (df : DataFrame)
    (parsed : list string * list (list Value)) : Prop :=
  columns df = parsed.1 ∧
  body_of df = parsed.2 ∧
  label <$> rows df = range_label <$> seq 0 (length parsed.2).

Lemma imap_labels (g : nat → Value) (body : list (list Value)) :
  label <$> imap (λ i c, {| label := g i; cells := c |}) body
  = g <$> seq 0 (length body).
Proof.
  revert g. induction body as [|c body IH]; intros g; [done|]. csimpl.
  f_equal. rewrite <- fmap_S_seq, <- list_fmap_compose. apply (IH (g ∘ S)).
Qed.

Lemma frame_of_csv_holds parsed : holds_parsed (frame_of_csv parsed) parsed.
Proof.
  destruct parsed as [cols body]. split_and!.
  - done.
  - apply body_frame_of_csv.
  - apply imap_labels.
Qed.

(** On a path that exists and holds two files that parse, the call
    returns the frames of the two files. *)
Lemma existing_path_returns_files d ts sh rs p (w : @World FileContent)
    dir c_train c_test parsed_train parsed_test attrs :
  fs w !! p = Some dir →
  dir !! "train.csv" = Some c_train → read_csv_text c_train = Ok parsed_train →
  dir !! "test.csv" = Some c_test → read_csv_text c_test = Ok parsed_test →
  heap w !! d = Some (DatasetObj attrs) →
  ∃ a b w',
    split_call d ts sh rs (Some p) w = (Ok (a, b), w') ∧
    dataset_info w' a = Some (frame_of_csv parsed_train) ∧
    dataset_info w' b = Some (frame_of_csv parsed_test) ∧
    fs w' = fs w ∧ rng w' = rng w.
Proof.
  intros Hdir Hc1 Hp1 Hc2 Hp2 Hd.
  destruct (finish_total p d w dir c_train c_test parsed_train parsed_test attrs)
    as (a & b & w' & Hfin); try done.
  exists a, b, w'. split.
  { rewrite split_call_unfold, Hdir.
    rewrite bool_decide_eq_true_2 by eauto. by rewrite bind_run. }
  apply finish_inv in Hfin as (dir' & ptr & pte & attrs' & l1 & l2 & F).
  pose proof (finished_info _ _ _ _ _ _ _ _ _ _ _ _ F) as [Ha Hb].
  destruct F as [Hfs Hrng Hdir' (c1' & Hc1' & Hp1') (c2' & Hc2' & Hp2')
                   _ _ _ _ _ _ _ _].
  assert (dir' = dir) as -> by congruence.
  assert (ptr = parsed_train) as -> by congruence.
  assert (pte = parsed_test) as -> by congruence.
  done.
Qed.

(** A call that returned has left, at its path, two files that parse,
    and the tables of its two datasets are the frames of these files. *)
Lemma returned_call_persists d ts sh rs p (w w1 : @World FileContent) a1 b1 :
  split_call d ts sh rs (Some p) w = (Ok (a1, b1), w1) →
  ∃ dir c_train c_test parsed_train parsed_test attrs,
    fs w1 !! p = Some dir ∧
    dir !! "train.csv" = Some c_train ∧ read_csv_text c_train = Ok parsed_train ∧
    dir !! "test.csv" = Some c_test ∧ read_csv_text c_test = Ok parsed_test ∧
    heap w1 !! d = Some (DatasetObj attrs) ∧
    dataset_info w1 a1 = Some (frame_of_csv parsed_train) ∧
    dataset_info w1 b1 = Some (frame_of_csv parsed_test).
Proof.
  intros Hcall. rewrite split_call_unfold in Hcall.
  apply bind_Ok in Hcall as (u & w0 & _ & Hfin).
  apply finish_inv in Hfin as (dir & ptr & pte & attrs & l1 & l2 & F).
  pose proof (finished_info _ _ _ _ _ _ _ _ _ _ _ _ F) as [Ha Hb].
  destruct F as [Hfs Hrng Hdir (c1 & Hc1 & Hp1) (c2 & Hc2 & Hp2) Hd _ _ _ _ _ _ Hframe].
  exists dir, c1, c2, ptr, pte, attrs. split_and!; try done.
  - by rewrite Hfs.
  - by apply Hframe.
Qed.

(** C2: the existence of the split path is all the call looks at.
    First part: in any world in which the path exists and holds a
    [train.csv] and a [test.csv] that parse, the call returns, whatever
    test size, shuffle flag and seed it is given, and the tables of the
    two returned datasets are what the two files hold (their header,
    their cells row by row, a fresh range index); no file is written
    and the generator is not touched.  Second part: after a call that
    returned, with any parameters, the path is in that state, so a
    second call with the same path and any other parameters returns
    the very tables of the first call, which are what the files hold. *)
Theorem cache_reuse d ts sh rs p :
  (∀ (w : @World FileContent) dir c_train c_test parsed_train parsed_test attrs,
      fs w !! p = Some dir →
      dir !! "train.csv" = Some c_train → read_csv_text c_train = Ok parsed_train →
      dir !! "test.csv" = Some c_test → read_csv_text c_test = Ok parsed_test →
      heap w !! d = Some (DatasetObj attrs) →
      ∃ a b w' out_train out_test,
        split_call d ts sh rs (Some p) w = (Ok (a, b), w') ∧
        dataset_info w' a = Some out_train ∧
        dataset_info w' b = Some out_test ∧
        holds_parsed out_train parsed_train ∧
        holds_parsed out_test parsed_test ∧
        fs w' = fs w ∧ rng w' = rng w)
  ∧
  (∀ ts0 sh0 rs0 (w0 w1 : @World FileContent) a1 b1,
      split_call d ts0 sh0 rs0 (Some p) w0 = (Ok (a1, b1), w1) →
      ∃ dir c_train c_test parsed_train parsed_test a2 b2 w2 out_train out_test,
        fs w1 !! p = Some dir ∧
        dir !! "train.csv" = Some c_train ∧
        read_csv_text c_train = Ok parsed_train ∧
        dir !! "test.csv" = Some c_test ∧
        read_csv_text c_test = Ok parsed_test ∧
        split_call d ts sh rs (Some p) w1 = (Ok (a2, b2), w2) ∧
        dataset_info w1 a1 = Some out_train ∧
        dataset_info w1 b1 = Some out_test ∧
        dataset_info w2 a2 = Some out_train ∧
        dataset_info w2 b2 = Some out_test ∧
        holds_parsed out_train parsed_train ∧
        holds_parsed out_test parsed_test ∧
        fs w2 = fs w1 ∧ rng w2 = rng w1).
Proof.
  split.
  - intros w dir c1 c2 ptr pte attrs Hdir Hc1 Hp1 Hc2 Hp2 Hd.
    destruct (existing_path_returns_files d ts sh rs p w dir c1 c2 ptr pte attrs)
      as (a & b & w' & Hcall & Ha & Hb & Hfs & Hrng); try done.
    exists a, b, w', (frame_of_csv ptr), (frame_of_csv pte).
    split_and!; try done; apply frame_of_csv_holds.
  - intros ts0 sh0 rs0 w0 w1 a1 b1 Hfirst.
    destruct (returned_call_persists _ _ _ _ _ _ _ _ _ Hfirst)
      as (dir & c1 & c2 & ptr & pte & attrs & Hdir & Hc1 & Hp1 & Hc2 & Hp2
          & Hd & Ha1 & Hb1).
    destruct (existing_path_returns_files d ts sh rs p w1 dir c1 c2 ptr pte attrs)
      as (a2 & b2 & w2 & Hcall & Ha & Hb & Hfs & Hrng); try done.
    exists dir, c1, c2, ptr, pte, a2, b2, w2, (frame_of_csv ptr), (frame_of_csv pte).
    split_and!; try done; apply frame_of_csv_holds.
Qed.

(** ** Determinism *)

Lemma one_agree info ts shA rsA shB rsB st g g' :
  (∀ idx g g', (sk_train_test_split idx ts rsA shA g).1
               = (sk_train_test_split idx ts rsB shB g').1) →
  (one info ts shA rsA st g).1 = (one info ts shB rsB st g').1.
Proof.
  intros Hagree. unfold split_one.
  destruct (select_group info st.1 st.2 ≫= reset_index) as [cur|e]; [|done].
  specialize (Hagree (arange (len cur)) g g').
  destruct (sk_train_test_split _ ts rsA shA g) as [[[tr te]|e] g1];
    destruct (sk_train_test_split _ ts rsB shB g') as [[[tr' te']|e'] g1'];
    simpl in Hagree; try discriminate; by simplify_eq.
Qed.

Lemma pairs_agree info ts shA rsA shB rsB pairs g g' :
  (∀ idx g g', (sk_train_test_split idx ts rsA shA g).1
               = (sk_train_test_split idx ts rsB shB g').1) →
  (pairs_split info ts shA rsA pairs g).1 = (pairs_split info ts shB rsB pairs g').1.
Proof.
  intros Hagree. revert g g'. induction pairs as [|st pairs IH]; intros g g'; [done|].
  simpl. pose proof (one_agree info ts shA rsA shB rsB st g g' Hagree) as Hone.
  destruct (one info ts shA rsA st g) as [[part|e] g1];
    destruct (one info ts shB rsB st g') as [[part'|e'] g1'];
    simpl in Hone; try discriminate; simplify_eq; [|done].
  specialize (IH g1 g1').
  destruct (pairs_split info ts shA rsA pairs g1) as [[parts|e] g2];
    destruct (pairs_split info ts shB rsB pairs g1') as [[parts'|e'] g2'];
    simpl in IH; try discriminate; by simplify_eq.
Qed.

(** Two calls on new paths, on datasets that hold the same table, with
    settings under which the split routine answers alike: when the
    first returns, the second returns the same tables. *)
Lemma fresh_calls_agree ts shA rsA shB rsB info dA dB pA pB
    (wA wA' wB : @World FileContent) a1 b1 :
  (∀ idx g g', (sk_train_test_split idx ts rsA shA g).1
               = (sk_train_test_split idx ts rsB shB g').1) →
  fs wA !! pA = None → fs wB !! pB = None →
  dataset_info wA dA = Some info → dataset_info wB dB = Some info →
  split_call dA ts shA rsA (Some pA) wA = (Ok (a1, b1), wA') →
  ∃ a2 b2 wB' train_info test_info,
    split_call dB ts shB rsB (Some pB) wB = (Ok (a2, b2), wB') ∧
    dataset_info wA' a1 = Some train_info ∧
    dataset_info wA' b1 = Some test_info ∧
    dataset_info wB' a2 = Some train_info ∧
    dataset_info wB' b2 = Some test_info.
Proof.
  intros Hagree HpA HpB HiA HiB HcallA.
  destruct (fresh_call_inv _ _ _ _ _ _ _ _ _ _ HpA HiA HcallA)
    as (sc & tc & parts & T1 & T2 & ptr & pte & F).
  destruct F as [Hsc Htc Hpairs HT1 HT2 _ Hp1 Hp2 Ha Hb _].
  pose proof (pairs_agree info ts shA rsA shB rsB
                (list_prod (list_set sc) (list_set tc)) (rng wA) (rng wB) Hagree)
    as Hsame.
  rewrite Hpairs in Hsame. simpl in Hsame.
  destruct (pairs_split info ts shB rsB _ (rng wB)) as [r gB] eqn:HpairsB.
  simpl in Hsame. subst r.
  destruct (fresh_call_total dB ts shB rsB pB info wB sc tc parts gB T1 T2 ptr pte)
    as (a2 & b2 & wB' & HcallB); try done.
  destruct (fresh_call_inv _ _ _ _ _ _ _ _ _ _ HpB HiB HcallB)
    as (sc' & tc' & parts' & T1' & T2' & ptr' & pte' & F').
  destruct F' as [Hsc' Htc' Hpairs' HT1' HT2' _ Hp1' Hp2' Ha' Hb' _].
  assert (sc' = sc) as -> by congruence. assert (tc' = tc) as -> by congruence.
  assert (parts' = parts) as -> by congruence.
  assert (T1' = T1) as -> by congruence. assert (T2' = T2) as -> by congruence.
  assert (ptr' = ptr) as -> by congruence. assert (pte' = pte) as -> by congruence.
  exists a2, b2, wB', (frame_of_csv ptr), (frame_of_csv pte). by split_and!.
Qed.

(** Creating the split allocates nothing. *)
Lemma create_heap d ts sh rs p (w w0 : @World FileContent) u :
  create d ts sh rs p w = (Ok u, w0) → heap w0 = heap w.
Proof.
  intros Hcreate.
  assert (Hp : fs w !! p = None).
  { unfold create_split in Hcreate. rewrite bind_run in Hcreate.
    unfold os_makedirs at 1 in Hcreate. by destruct (fs w !! p). }
  destruct (create_Ok_inv _ _ _ _ _ _ _ _ Hp Hcreate)
    as (info & sc & tc & Hinfo & Hsc & Htc).
  rewrite (create_run d ts sh rs p w info sc tc) in Hcreate by done.
  destruct (pairs_split _ _ _ _ _ _) as [[parts|e] g]; [|discriminate].
  destruct (pd_concat (Some parts.*1)); [|discriminate].
  destruct (pd_concat (Some parts.*2)); [|discriminate].
  injection Hcreate as _ <-. done.
Qed.

Lemma first_stage_heap d ts sh rs p (w w0 : @World FileContent) u :
  (if bool_decide (is_Some (fs w !! p)) then mret ()
   else create d ts sh rs p) w = (Ok u, w0) →
  heap w0 = heap w.
Proof.
  case_bool_decide.
  - unfold mret, M_ret. by intros [= _ <-].
  - apply create_heap.
Qed.

(** A call on a new path that returns has read the table of the dataset. *)
Lemma fresh_call_info d ts sh rs p (w w' : @World FileContent) a b :
  fs w !! p = None →
  split_call d ts sh rs (Some p) w = (Ok (a, b), w') →
  ∃ info, dataset_info w d = Some info.
Proof.
  intros Hp Hcall. rewrite split_call_unfold, Hp in Hcall.
  rewrite bool_decide_eq_false_2 in Hcall by (by intros [? ?]).
  apply bind_Ok in Hcall as (u & w0 & Hcreate & _).
  destruct (create_Ok_inv _ _ _ _ _ _ _ _ Hp Hcreate) as (info & _ & _ & Hinfo & _).
  by exists info.
Qed.

(** Without a path the call is the call on the generated path. *)
Lemma split_call_default_path d ts sh rs (w : @World FileContent) :
  split_call d ts sh rs None w
  = split_call d ts sh rs (Some (get_random_dir_path "model_selection" w).1)
      (get_random_dir_path "model_selection" w).2.
Proof.
  unfold train_test_split_groupby_trial. rewrite !bind_run.
  by destruct (get_random_dir_path "model_selection" w).
Qed.

(** A call that returns leaves the table of the input dataset in place. *)
Lemma call_keeps_info d ts sh rs p info (w w' : @World FileContent) a b :
  dataset_info w d = Some info →
  split_call d ts sh rs (Some p) w = (Ok (a, b), w') →
  dataset_info w' d = Some info.
Proof.
  intros Hinfo Hcall. rewrite split_call_unfold in Hcall.
  apply bind_Ok in Hcall as (u & w0 & Hfirst & Hfin).
  apply first_stage_heap in Hfirst as Hheap.
  apply finish_inv in Hfin as (dir & ptr & pte & attrs & l1 & l2 & F).
  destruct (dataset_info_obj _ _ _ Hinfo) as (attrs0 & l & Hd & Hl & Hdf).
  rewrite <- Hheap in Hd, Hdf.
  apply (fin_frame _ _ _ _ _ _ _ _ _ _ _ _ F) in Hd, Hdf.
  unfold dataset_info. by rewrite Hd, Hl, Hdf.
Qed.

(** With a seed the split routine does not read the global generator. *)
Definition seeded_split_is_deterministic : Prop :=
  ∀ idx ts seed sh g g',
    (sk_train_test_split idx ts (Some seed) sh g).1
    = (sk_train_test_split idx ts (Some seed) sh g').1.

(** Without shuffling the split routine uses neither the seed nor the
    generator. *)
Definition unshuffled_split_ignores_seed : Prop :=
  ∀ idx ts rs rs' g g',
    (sk_train_test_split idx ts rs false g).1
    = (sk_train_test_split idx ts rs' false g').1.

(** C6: two calls in a row on the same dataset with a test size of 0.2,
    shuffling and the seed 42, each on a split path that does not exist
    when it is called: when the first returns so does the second, and
    the train and the test table of the second call are those of the
    first.  The seeded split routine is assumed not to depend on the
    global generator. *)
Theorem seeded_calls_agree d p1 p2 (w w1 : @World FileContent) a1 b1 :
  seeded_split_is_deterministic →
  fs w !! p1 = None →
  split_call d test_size_default true (Some 42%Z) (Some p1) w = (Ok (a1, b1), w1) →
  fs w1 !! p2 = None →
  ∃ a2 b2 w2 train_info test_info,
    split_call d test_size_default true (Some 42%Z) (Some p2) w1
    = (Ok (a2, b2), w2) ∧
    dataset_info w1 a1 = Some train_info ∧
    dataset_info w1 b1 = Some test_info ∧
    dataset_info w2 a2 = Some train_info ∧
    dataset_info w2 b2 = Some test_info.
Proof.
  intros Hseed Hp1 Hcall Hp2.
  destruct (fresh_call_info _ _ _ _ _ _ _ _ _ Hp1 Hcall) as [info Hinfo].
  pose proof (call_keeps_info _ _ _ _ _ _ _ _ _ _ Hinfo Hcall) as Hinfo1.
  apply (fresh_calls_agree test_size_default true (Some 42%Z) true (Some 42%Z)
           info d d p1 p2 w w1 w1 a1 b1); try done.
Qed.

(** The function itself makes no use of [random_state] but to hand it
    to the split routine.  Two calls in a row on the same dataset with
    the same test size and no shuffling, with two values of
    [random_state], each on a split path that does not exist when it is
    called: if the routine ignores the seed and the generator when it
    does not shuffle, then when the first returns so does the second,
    with the same train and test tables.  scikit-learn does not ignore
    every seed: one it rejects makes the call raise, shuffling or not,
    as evaluated further down on the reference routine that checks its
    parameters. *)
Theorem seed_unused_without_shuffle d ts rs rs' p1 p2
    (w w1 : @World FileContent) a1 b1 :
  unshuffled_split_ignores_seed →
  fs w !! p1 = None →
  split_call d ts false rs (Some p1) w = (Ok (a1, b1), w1) →
  fs w1 !! p2 = None →
  ∃ a2 b2 w2 train_info test_info,
    split_call d ts false rs' (Some p2) w1 = (Ok (a2, b2), w2) ∧
    dataset_info w1 a1 = Some train_info ∧
    dataset_info w1 b1 = Some test_info ∧
    dataset_info w2 a2 = Some train_info ∧
    dataset_info w2 b2 = Some test_info.
Proof.
  intros Hignore Hp1 Hcall Hp2.
  destruct (fresh_call_info _ _ _ _ _ _ _ _ _ Hp1 Hcall) as [info Hinfo].
  pose proof (call_keeps_info _ _ _ _ _ _ _ _ _ _ Hinfo Hcall) as Hinfo1.
  apply (fresh_calls_agree ts false rs false rs' info d d p1 p2 w w1 w1 a1 b1);
    try done.
Qed.

(** ** The returned datasets *)

(** C9: the two returned datasets are new objects that hold, attribute
    by attribute, the references the input dataset holds (the sample
    storage among them), except [info], which in each of them refers to
    a new frame object of its own, read from the split directory.
    Every object that existed before the call, the input dataset and
    its table included, is as it was. *)
Theorem returned_datasets_are_shallow_copies d ts sh rs p
    (w w' : @World FileContent) a b :
  split_call d ts sh rs (Some p) w = (Ok (a, b), w') →
  ∃ attrs l_train l_test df_train df_test,
    heap w !! d = Some (DatasetObj attrs) ∧
    heap w' !! a = Some (DatasetObj (<["info" := l_train]> attrs)) ∧
    heap w' !! b = Some (DatasetObj (<["info" := l_test]> attrs)) ∧
    heap w' !! l_train = Some (FrameObj df_train) ∧
    heap w' !! l_test = Some (FrameObj df_test) ∧
    heap w !! a = None ∧ heap w !! b = None ∧
    heap w !! l_train = None ∧ heap w !! l_test = None ∧
    a ≠ b ∧ l_train ≠ l_test ∧
    heap w' !! d = Some (DatasetObj attrs) ∧
    (∀ l o, heap w !! l = Some o → heap w' !! l = Some o).
Proof.
  intros Hcall. rewrite split_call_unfold in Hcall.
  apply bind_Ok in Hcall as (u & w0 & Hfirst & Hfin).
  apply first_stage_heap in Hfirst as Hheap.
  apply finish_inv in Hfin as (dir & ptr & pte & attrs & l1 & l2 & F).
  destruct F as [_ _ _ _ _ Hd Ha Hb Hf1 Hf2 (Na & Nb & N1 & N2) (Hab & H12) Hframe].
  rewrite Hheap in *.
  exists attrs, l1, l2, (frame_of_csv ptr), (frame_of_csv pte).
  split_and!; auto.
Qed.

(** ** The empty table *)

Lemma list_set_nil : set_enumeration → list_set [] = [].
Proof.
  intros Hset. destruct (list_set []) as [|x xs] eqn:E; [done|].
  destruct (Hset []) as [_ Hin]. specialize (Hin x). rewrite E in Hin.
  exfalso. apply (not_elem_of_nil x), Hin, list_elem_of_here.
Qed.

(** C10: on a table without rows, a call with a split path that does not
    exist raises instead of returning two empty datasets, and leaves the
    split directory behind, empty.  When the table has its two id
    columns the exception is the [TypeError] of [pd.concat] on the
    accumulator that was never initialised. *)
Theorem empty_table_raises d ts sh rs p info (w : @World FileContent) :
  set_enumeration →
  fs w !! p = None →
  dataset_info w d = Some info →
  rows info = [] →
  ∃ e w',
    split_call d ts sh rs (Some p) w = (Raise e, w') ∧
    fs w' = <[p := ∅]> (fs w) ∧
    (is_Some (column_position "subject_id" (columns info)) →
     is_Some (column_position "trial_id" (columns info)) →
     e = TypeError).
Proof.
  intros Hset Hp Hinfo Hrows.
  rewrite split_call_unfold, Hp.
  rewrite bool_decide_eq_false_2 by (by intros [? ?]).
  rewrite bind_run.
  destruct (column_position "subject_id" (columns info)) as [ps|] eqn:Hps; cycle 1.
  { unfold create_split. rewrite bind_run. unfold os_makedirs at 1. rewrite Hp.
    rewrite bind_run. erewrite dataset_info_getattr by exact Hinfo.
    rewrite bind_run. unfold getitem at 1. rewrite Hps. unfold lift at 1.
    eexists _, _. split_and!; [done..|]. by intros [? ?]. }
  destruct (column_position "trial_id" (columns info)) as [pt|] eqn:Hpt; cycle 1.
  { unfold create_split. rewrite bind_run. unfold os_makedirs at 1. rewrite Hp.
    rewrite bind_run. erewrite dataset_info_getattr by exact Hinfo.
    rewrite bind_run. unfold getitem at 1. rewrite Hps. unfold lift at 1.
    rewrite bind_run. unfold getitem at 1. rewrite Hpt. unfold lift at 1.
    eexists _, _. split_and!; [done..|]. by intros _ [? ?]. }
  rewrite (create_run d ts sh rs p w info [] []); try done.
  - rewrite (list_set_nil Hset). simpl.
    eexists _, _. split_and!; done.
  - unfold getitem. by rewrite Hps, Hrows.
  - unfold getitem. by rewrite Hpt, Hrows.
Qed.
(** ** What a call leaves alone *)

(** Computations all of whose steps relate the world before to the
    world after by [I], whatever the outcome. *)
Definition preserves (I : relation (@World FileContent)) {A} (m : M A) : Prop :=
  ∀ w r w', m w = (r, w') → I w w'.

Section Preserves.

Context (I : relation (@World FileContent)) `{!PreOrder I}.

Lemma preserves_ret {A} (a : A) : preserves I (mret a).
Proof. intros w r w' [= <- <-]. reflexivity. Qed.

Lemma preserves_lift {A} (x : Result A) : preserves I (lift x).
Proof. intros w r w' [= <- <-]. reflexivity. Qed.

Lemma preserves_bind {A B} (m : M A) (f : A → M B) :
  preserves I m → (∀ a, preserves I (f a)) → preserves I (m ≫= f).
Proof.
  intros Hm Hf w r w' H. rewrite bind_run in H.
  destruct (m w) as [[a|e] w1] eqn:Hmw.
  - transitivity w1; [by eapply Hm | by eapply Hf].
  - injection H as <- <-. by eapply Hm.
Qed.

Lemma preserves_for_each {A S} (xs : list A) (f : A → S → M S) s :
  (∀ x s, preserves I (f x s)) → preserves I (for_each xs f s).
Proof.
  intros Hf. revert s. induction xs as [|x xs IH]; intros s; simpl.
  - apply preserves_ret.
  - apply preserves_bind; [apply Hf | apply IH].
Qed.

(** The steps that only read. *)
Lemma preserves_os_path_exists p : preserves I (os_path_exists p).
Proof. intros w r w' [= <- <-]. reflexivity. Qed.

Lemma preserves_read_file path name : preserves I (read_file path name).
Proof.
  intros w r w' H. unfold read_file in H.
  destruct (fs w !! path) as [dir|]; [destruct (dir !! name)|];
    injection H as <- <-; reflexivity.
Qed.

Lemma preserves_getattr_info d : preserves I (getattr_info d).
Proof.
  intros w r w' H. unfold getattr_info in H.
  repeat case_match; injection H as <- <-; reflexivity.
Qed.

(** The loops, given the generator may advance. *)
Lemma preserves_split_group info ts sh rs s t acc :
  (∀ w g, I w (with_rng w g)) →
  preserves I (body info ts sh rs s t acc).
Proof.
  intros Hrng. unfold split_group.
  apply preserves_bind; [apply preserves_lift|]. intros cur.
  apply preserves_bind.
  { intros w r w' H. unfold train_test_split in H.
    destruct (sk_train_test_split _ _ _ _ _) as [r0 g]. injection H as <- <-.
    apply (Hrng w g). }
  intros [tr_i te_i]. destruct acc as [[trs|] [tes|]];
    repeat first [ apply preserves_lift | apply preserves_ret
                 | apply preserves_bind; [|intros ?] ].
Qed.

(** The creation of the split once the directory is made. *)
Definition create_rest (d : loc) (ts : TestSize) (sh : bool) (rs : option Z)
    (p : string) : M unit :=
  info ← getattr_info d;
  subject_col ← lift (getitem info "subject_id");
  trial_col ← lift (getitem info "trial_id");
  '(train_info, test_info) ←
    for_each (list_set subject_col) (λ subject,
      for_each (list_set trial_col) (λ trial_id,
        body info ts sh rs subject trial_id))
      (None, None);
  train_info ← lift (pd_concat train_info);
  test_info ← lift (pd_concat test_info);
  to_csv to_csv_text train_info p "train.csv";;
  to_csv to_csv_text test_info p "test.csv".

Lemma create_split_rest d ts sh rs p :
  create d ts sh rs p = (os_makedirs p ≫= λ _, create_rest d ts sh rs p).
Proof. reflexivity. Qed.

Lemma preserves_create_rest d ts sh rs p :
  (∀ w g, I w (with_rng w g)) →
  (∀ name text, preserves I (write_file p name text)) →
  preserves I (create_rest d ts sh rs p).
Proof.
  intros Hrng Hwrite. unfold create_rest.
  apply preserves_bind; [apply preserves_getattr_info|]. intros info.
  apply preserves_bind; [apply preserves_lift|]. intros sc.
  apply preserves_bind; [apply preserves_lift|]. intros tc.
  apply preserves_bind.
  { apply preserves_for_each. intros s acc.
    apply preserves_for_each. intros t acc'. by apply preserves_split_group. }
  intros [trs tes].
  apply preserves_bind; [apply preserves_lift|]. intros T1.
  apply preserves_bind; [apply preserves_lift|]. intros T2.
  apply preserves_bind; [apply Hwrite|]. intros _. apply Hwrite.
Qed.

Lemma preserves_create d ts sh rs p :
  (∀ w g, I w (with_rng w g)) →
  preserves I (os_makedirs p) →
  (∀ name text, preserves I (write_file p name text)) →
  preserves I (create d ts sh rs p).
Proof.
  intros Hrng Hmk Hwrite. rewrite create_split_rest.
  apply preserves_bind; [done|]. intros _. by apply preserves_create_rest.
Qed.

End Preserves.

(** The files and the generator stay, objects are only added. *)
Definition grows : relation (@World FileContent) :=
  λ w w', fs w' = fs w ∧ rng w' = rng w ∧
          ∀ l o, heap w !! l = Some o → heap w' !! l = Some o.

#[local] Instance grows_preorder : PreOrder grows.
Proof.
  split.
  - by intros w.
  - intros w1 w2 w3 (F1 & R1 & H1) (F2 & R2 & H2).
    split_and!; [congruence..|]. auto.
Qed.

Lemma grows_alloc o : preserves grows (alloc o).
Proof.
  intros w r w' [= <- <-]. split_and!; [done..|]. simpl.
  intros l ob Hl. rewrite lookup_insert_ne; [done|].
  intros <-. by rewrite fresh_heap_None in Hl.
Qed.

Lemma grows_read_csv path name : preserves grows (read_csv read_csv_text path name).
Proof.
  unfold read_csv.
  apply preserves_bind; [apply _ | apply preserves_read_file; apply _ |].
  intros c.
  apply preserves_bind; [apply _ | apply preserves_lift; apply _ |].
  intros parsed. apply grows_alloc.
Qed.

(** A copy followed by the assignment of its [info]: the assignment
    writes to the new object only. *)
Lemma grows_copy_setattr {A} obj value (k : loc → M A) :
  (∀ a, preserves grows (k a)) →
  preserves grows (a ← copy obj; setattr_info a value;; k a).
Proof.
  intros Hk w r w' H. rewrite bind_run in H. unfold copy at 1 in H.
  destruct (heap w !! obj) as [o|] eqn:Ho; cycle 1.
  { by injection H as <- <-. }
  unfold alloc at 1 in H. cbv zeta in H.
  set (a := fresh (dom (heap w))) in *.
  assert (Hnew : heap w !! a = None) by apply fresh_heap_None.
  rewrite bind_run in H. unfold setattr_info at 1 in H. cbn [heap fs rng] in H.
  rewrite lookup_insert_eq in H.
  assert (Hkeep : ∀ (x : PyObj) l ob,
             heap w !! l = Some ob → <[a := x]> (heap w) !! l = Some ob).
  { intros x l ob Hl. rewrite lookup_insert_ne; [done|]. intros <-. congruence. }
  destruct o as [attrs| |].
  - destruct (Hk a _ _ _ H) as (F & R & Hh). cbn [heap fs rng] in *.
    split_and!; [done..|]. intros l ob Hl. apply Hh.
    rewrite insert_insert_eq. by apply Hkeep.
  - injection H as <- <-. split_and!; [done..|]. intros l ob. apply Hkeep.
  - injection H as <- <-. split_and!; [done..|]. intros l ob. apply Hkeep.
Qed.

Lemma grows_finish p d : preserves grows (finish p d).
Proof.
  unfold finish.
  apply preserves_bind; [apply _ | apply grows_read_csv |]. intros l1.
  apply preserves_bind; [apply _ | apply grows_read_csv |]. intros l2.
  apply grows_copy_setattr. intros a.
  apply grows_copy_setattr. intros b.
  apply preserves_ret. apply _.
Qed.

(** Every object stays as it is. *)
Definition same_heap : relation (@World FileContent) :=
  λ w w', heap w' = heap w.

#[local] Instance same_heap_preorder : PreOrder same_heap.
Proof. split; unfold same_heap; [done | intros ???; congruence]. Qed.

Lemma same_heap_create d ts sh rs p : preserves same_heap (create d ts sh rs p).
Proof.
  apply preserves_create; [apply _ | done | |].
  - intros w r w' H. unfold os_makedirs in H.
    destruct (fs w !! p); by injection H as <- <-.
  - intros name text w r w' H. unfold write_file in H.
    destruct (fs w !! p); by injection H as <- <-.
Qed.

(** X8: whatever its outcome, a call with a path given leaves every
    object that existed before it as it was: it only allocates.  The
    input dataset, its table and its sample storage are never written
    to, also when the call raises half-way. *)
Theorem call_never_modifies_objects d ts sh rs p (w w' : @World FileContent) r :
  split_call d ts sh rs (Some p) w = (r, w') →
  ∀ l o, heap w !! l = Some o → heap w' !! l = Some o.
Proof.
  intros Hcall l o Hl. rewrite split_call_unfold, bind_run in Hcall.
  destruct ((if bool_decide (is_Some (fs w !! p)) then mret ()
             else create d ts sh rs p) w) as [[u|e] w0] eqn:Hfirst.
  all: assert (Hheap : heap w0 = heap w)
         by (revert Hfirst; case_bool_decide;
             [by intros [= <- <-] | apply same_heap_create]).
  - apply (grows_finish p d _ _ _ Hcall). by rewrite Hheap.
  - injection Hcall as <- <-. by rewrite Hheap.
Qed.

(** X9: on a split path that exists, a call writes no file and does not
    advance the generator, whether it returns or raises. *)
Theorem existing_path_is_read_only d ts sh rs p (w w' : @World FileContent) r :
  is_Some (fs w !! p) →
  split_call d ts sh rs (Some p) w = (r, w') →
  fs w' = fs w ∧ rng w' = rng w.
Proof.
  intros Hp Hcall. rewrite split_call_unfold in Hcall.
  rewrite bool_decide_eq_true_2 in Hcall by done. rewrite bind_run in Hcall.
  unfold mret at 1, M_ret at 1 in Hcall.
  destruct (grows_finish p d _ _ _ Hcall) as (? & ? & _). done.
Qed.

(** ** Failures of the creation *)

(** X5: a table without one of the two id columns: a call on a new path
    raises [KeyError], after the directory was made; the directory is
    left empty and nothing else has changed. *)
Theorem missing_id_column_raises d ts sh rs p info (w : @World FileContent) :
  fs w !! p = None →
  dataset_info w d = Some info →
  column_position "subject_id" (columns info) = None
  ∨ column_position "trial_id" (columns info) = None →
  split_call d ts sh rs (Some p) w
  = (Raise KeyError,
     {| fs := <[p := ∅]> (fs w); heap := heap w; rng := rng w |}).
Proof.
  intros Hp Hinfo Hcol. rewrite split_call_unfold, Hp.
  rewrite bool_decide_eq_false_2 by (by intros [? ?]).
  rewrite bind_run, create_split_rest, bind_run.
  unfold os_makedirs at 1. rewrite Hp. unfold create_rest.
  rewrite bind_run. erewrite dataset_info_getattr by exact Hinfo.
  rewrite bind_run. unfold getitem at 1, lift at 1.
  destruct (column_position "subject_id" (columns info)) as [ps|] eqn:Hps; [|done].
  destruct Hcol as [|Hpt]; [done|].
  rewrite bind_run. unfold getitem at 1, lift at 1. by rewrite Hpt.
Qed.

(** A path whose directory has no [train.csv]. *)
Lemma absent_train_raises d ts sh rs p dir (w : @World FileContent) :
  fs w !! p = Some dir → dir !! "train.csv" = None →
  split_call d ts sh rs (Some p) w = (Raise FileNotFoundError, w).
Proof.
  intros Hp Hdir. rewrite split_call_unfold, Hp.
  rewrite bool_decide_eq_true_2 by eauto. rewrite bind_run.
  unfold mret at 1, M_ret at 1, finish. rewrite bind_run.
  unfold read_csv at 1. rewrite bind_run. unfold read_file at 1.
  by rewrite Hp, Hdir.
Qed.

(** X1: when the split itself cannot be computed (a column is missing,
    the table has no row, the split routine or a selection raises for
    some pair), a call on a new path raises and leaves the directory
    behind, empty.  From then on every call with this path, for any
    dataset and any parameters, raises [FileNotFoundError] and changes
    nothing: the split is never computed again. *)
Theorem failed_creation_poisons_path d ts sh rs p info (w : @World FileContent) e :
  fs w !! p = None →
  dataset_info w d = Some info →
  (cross info ts sh rs (rng w)).1 = Raise e →
  ∃ e' w',
    split_call d ts sh rs (Some p) w = (Raise e', w') ∧
    fs w' = <[p := ∅]> (fs w) ∧
    heap w' = heap w ∧
    ∀ d2 ts2 sh2 rs2,
      split_call d2 ts2 sh2 rs2 (Some p) w' = (Raise FileNotFoundError, w').
Proof.
  intros Hp Hinfo Hcross.
  assert (Hcreate : ∃ e' g,
             create d ts sh rs p w
             = (Raise e', {| fs := <[p := ∅]> (fs w); heap := heap w; rng := g |})).
  { unfold cross_product_split in Hcross.
    destruct (getitem info "subject_id") as [sc|e1] eqn:Hsc; cycle 1.
    { exists e1, (rng w). rewrite create_split_rest, bind_run.
      unfold os_makedirs at 1. rewrite Hp. unfold create_rest.
      rewrite bind_run. erewrite dataset_info_getattr by exact Hinfo.
      by rewrite bind_run, Hsc. }
    destruct (getitem info "trial_id") as [tc|e1] eqn:Htc; cycle 1.
    { exists e1, (rng w). rewrite create_split_rest, bind_run.
      unfold os_makedirs at 1. rewrite Hp. unfold create_rest.
      rewrite bind_run. erewrite dataset_info_getattr by exact Hinfo.
      rewrite bind_run, Hsc. unfold lift at 1. by rewrite bind_run, Htc. }
    rewrite (create_run d ts sh rs p w info sc tc) by done.
    destruct (pairs_split _ _ _ _ _ _) as [[parts|e1] g]; [|by exists e1, g].
    destruct (pd_concat (Some parts.*1)) as [T1|e1] eqn:HT1;
      [|by exists TypeError, g].
    destruct (pd_concat (Some parts.*2)) as [T2|e2] eqn:HT2;
      [|by exists TypeError, g].
    discriminate. }
  destruct Hcreate as (e' & g & Hcreate).
  eexists e', _. split_and!.
  - rewrite split_call_unfold, Hp.
    rewrite bool_decide_eq_false_2 by (by intros [? ?]).
    by rewrite bind_run, Hcreate.
  - done.
  - done.
  - intros d2 ts2 sh2 rs2. apply (absent_train_raises _ _ _ _ _ ∅); simpl.
    + apply lookup_insert_eq.
    + apply lookup_empty.
Qed.

(** X4: the index of every group is reset without being dropped, so the
    old labels need a column name that is free: a table that already
    has a column [index] and a column [level_0] (what two nested splits
    leave) cannot be split.  When it has a row, the call on a new path
    raises [ValueError] at the first pair and leaves the directory
    empty. *)
Theorem taken_index_names_raise d ts sh rs p info (w : @World FileContent) :
  set_enumeration →
  fs w !! p = None →
  dataset_info w d = Some info →
  rectangular info →
  rows info ≠ [] →
  is_Some (column_position "subject_id" (columns info)) →
  is_Some (column_position "trial_id" (columns info)) →
  "index" ∈ columns info →
  "level_0" ∈ columns info →
  split_call d ts sh rs (Some p) w
  = (Raise ValueError,
     {| fs := <[p := ∅]> (fs w); heap := heap w; rng := rng w |}).
Proof.
  intros Hset Hp Hinfo Hrect Hrows [ps Hps] [pt Hpt] Hindex Hlevel.
  rewrite split_call_unfold, Hp.
  rewrite bool_decide_eq_false_2 by (by intros [? ?]).
  rewrite bind_run.
  destruct (getitem info "subject_id") as [sc|] eqn:Hsc;
    [|by unfold getitem in Hsc; rewrite Hps in Hsc].
  destruct (getitem info "trial_id") as [tc|] eqn:Htc;
    [|by unfold getitem in Htc; rewrite Hpt in Htc].
  rewrite (create_run d ts sh rs p w info sc tc) by done.
  assert (Hlen : ∀ name col, getitem info name = Ok col → col ≠ []).
  { intros name col Hcol ->. apply (getitem_length _ _ _ Hrect) in Hcol.
    destruct (rows info); [done|discriminate]. }
  destruct (list_set sc) as [|s ss] eqn:Hss.
  { exfalso. destruct sc as [|x sc']; [by apply (Hlen _ _ Hsc)|].
    destruct (Hset (x :: sc')) as [_ Hin]. specialize (Hin x).
    rewrite Hss in Hin. apply (not_elem_of_nil x), Hin, list_elem_of_here. }
  destruct (list_set tc) as [|t tt] eqn:Htt.
  { exfalso. destruct tc as [|x tc']; [by apply (Hlen _ _ Htc)|].
    destruct (Hset (x :: tc')) as [_ Hin]. specialize (Hin x).
    rewrite Htt in Hin. apply (not_elem_of_nil x), Hin, list_elem_of_here. }
  simpl. unfold split_one at 1, select_group. cbn [fst snd]. rewrite Hps, Hpt.
  cbn [mbind Result_bind]. unfold reset_index. cbn [columns].
  unfold reset_index_name. rewrite (bool_decide_eq_true_2 _ Hindex).
  by rewrite (bool_decide_eq_true_2 _ Hlevel).
Qed.

(** The split routine rejects an empty array. *)
Definition split_rejects_empty : Prop :=
  ∀ ts rs sh g train_index test_index g',
    sk_train_test_split [] ts rs sh g ≠ (Ok (train_index, test_index), g').

(** X2: the loops run over the full cross product of the subjects and
    the trials, so the split routine is called for every pair, also for
    one that has no row.  When the routine rejects an empty array, a
    table in which some subject has no row for some trial cannot be
    split: the call on a new path raises and leaves the directory
    empty. *)
Theorem sparse_table_raises d ts sh rs p info (w : @World FileContent) sc tc s t grp :
  set_enumeration →
  split_rejects_empty →
  fs w !! p = None →
  dataset_info w d = Some info →
  getitem info "subject_id" = Ok sc → s ∈ sc →
  getitem info "trial_id" = Ok tc → t ∈ tc →
  select_group info s t = Ok grp → rows grp = [] →
  ∃ e w',
    split_call d ts sh rs (Some p) w = (Raise e, w') ∧
    fs w' = <[p := ∅]> (fs w).
Proof.
  intros Hset Hrej Hp Hinfo Hsc Hs Htc Ht Hgrp Hempty.
  rewrite split_call_unfold, Hp.
  rewrite bool_decide_eq_false_2 by (by intros [? ?]).
  rewrite bind_run, (create_run d ts sh rs p w info sc tc) by done.
  destruct (pairs_split _ _ _ _ _ _) as [[parts|e] g] eqn:Hpairs; [|by eauto].
  exfalso.
  assert (Hin : (s, t) ∈ list_prod (list_set sc) (list_set tc)).
  { apply list_elem_of_In, in_prod_iff. split; apply list_elem_of_In; by apply Hset. }
  assert (Hne : list_prod (list_set sc) (list_set tc) ≠ []).
  { intros Heq. rewrite Heq in Hin. by apply elem_of_nil in Hin. }
  destruct (pairs_columns _ _ _ _ _ _ _ _ Hne Hpairs) as (ps & pt & Hps & Hpt & _).
  pose proof (pairs_pieces _ _ _ _ _ _ _ _ _ _ Hps Hpt Hpairs) as Hpieces.
  apply list_elem_of_lookup in Hin as [i Hi].
  destruct (Forall2_lookup_l _ _ _ _ _ Hpieces Hi) as (part & _ & Hpiece).
  destruct Hpiece as (tr_i & te_i & g0 & g1 & [Hsk _ _ _ _]).
  destruct (select_group_source info ps pt s t Hps Hpt) as (grp' & Hgrp' & Hcells).
  assert (grp' = grp) as -> by congruence.
  rewrite <- Hcells, Hempty in Hsk. by apply Hrej in Hsk.
Qed.

(** ** The cache and another dataset *)

(** X6: the cache is keyed by the path alone.  After a call that
    returned, a call with the same path on any other dataset object
    returns copies of that other dataset which carry the tables of the
    first call: the table of the dataset passed in is not looked at. *)
Theorem cache_ignores_dataset d1 d2 ts sh rs ts' sh' rs' p
    (w w1 : @World FileContent) a1 b1 attrs2 :
  split_call d1 ts sh rs (Some p) w = (Ok (a1, b1), w1) →
  heap w1 !! d2 = Some (DatasetObj attrs2) →
  ∃ a2 b2 w2 l_train l_test train_info test_info,
    split_call d2 ts' sh' rs' (Some p) w1 = (Ok (a2, b2), w2) ∧
    dataset_info w1 a1 = Some train_info ∧
    dataset_info w1 b1 = Some test_info ∧
    dataset_info w2 a2 = Some train_info ∧
    dataset_info w2 b2 = Some test_info ∧
    heap w2 !! a2 = Some (DatasetObj (<["info" := l_train]> attrs2)) ∧
    heap w2 !! b2 = Some (DatasetObj (<["info" := l_test]> attrs2)).
Proof.
  intros Hcall Hd2. rewrite split_call_unfold in Hcall.
  apply bind_Ok in Hcall as (u & w0 & _ & Hfin).
  apply finish_inv in Hfin as (dir & ptr & pte & attrs & l1 & l2 & F).
  pose proof (finished_info _ _ _ _ _ _ _ _ _ _ _ _ F) as [Ha Hb].
  destruct F as [Hfs Hrng Hdir (c1 & Hc1 & Hp1) (c2 & Hc2 & Hp2) _ _ _ _ _ _ _ _].
  assert (Hdir1 : fs w1 !! p = Some dir) by (by rewrite Hfs).
  destruct (finish_total p d2 w1 dir c1 c2 ptr pte attrs2) as (a2 & b2 & w2 & Hfin2);
    try done.
  assert (Hcall2 : split_call d2 ts' sh' rs' (Some p) w1 = (Ok (a2, b2), w2)).
  { rewrite split_call_unfold, Hdir1.
    rewrite bool_decide_eq_true_2 by eauto. by rewrite bind_run. }
  apply finish_inv in Hfin2 as (dir' & ptr' & pte' & attrs' & l1' & l2' & F').
  pose proof (finished_info _ _ _ _ _ _ _ _ _ _ _ _ F') as [Ha' Hb'].
  destruct F' as [_ _ Hdir' (c1' & Hc1' & Hp1') (c2' & Hc2' & Hp2')
                    Hd' Ha2 Hb2 _ _ _ _ _].
  assert (dir' = dir) as -> by congruence.
  assert (ptr' = ptr) as -> by congruence.
  assert (pte' = pte) as -> by congruence.
  assert (attrs' = attrs2) as -> by congruence.
  exists a2, b2, w2, l1', l2', (frame_of_csv ptr), (frame_of_csv pte).
  by split_and!.
Qed.

(** ** Without shuffling, any group *)

(** Without shuffling the split routine cuts the array it is given in
    two: a prefix for training, the rest for testing. *)
Definition unshuffled_split_is_a_cut : Prop :=
  ∀ idx ts rs g train_index test_index g',
    sk_train_test_split idx ts rs false g = (Ok (train_index, test_index), g') →
    ∃ k, train_index = take k idx ∧ test_index = drop k idx.

Lemma pick_take_seq {A} (l : list A) k :
  mapM (λ i, l !! i) (take k (seq 0 (length l))) = Some (take k l).
Proof.
  rewrite take_seq. rewrite pick_seq by lia. rewrite drop_0.
  destruct (decide (k ≤ length l)).
  - by rewrite Nat.min_l.
  - rewrite Nat.min_r by lia. by rewrite !take_ge by lia.
Qed.

Lemma pick_drop_seq {A} (l : list A) k :
  mapM (λ i, l !! i) (drop k (seq 0 (length l))) = Some (drop k l).
Proof.
  rewrite drop_seq. destruct (decide (k ≤ length l)).
  - rewrite pick_seq by lia. by rewrite take_ge by (rewrite length_drop; lia).
  - replace (length l - k) with 0 by lia. simpl. by rewrite drop_ge by lia.
Qed.

(** X7: what the docstring says of the function, for a group of any
    size.  Without shuffling, and with a split routine that cuts its
    array in two, the rows of every group keep the order they have in
    the source table and are cut at one position: the rows before the
    cut are the rows of the group in the train table, the rows from the
    cut on are its rows in the test table. *)
Theorem no_shuffle_cuts_every_group d ts rs p info (w w' : @World FileContent)
    a b s t grp :
  csv_lossless → set_enumeration → unshuffled_split_is_a_cut →
  fs w !! p = None →
  dataset_info w d = Some info →
  select_group info s t = Ok grp →
  split_call d ts false rs (Some p) w = (Ok (a, b), w') →
  ∃ out_train out_test grp_train grp_test k,
    dataset_info w' a = Some out_train ∧
    dataset_info w' b = Some out_test ∧
    select_group out_train s t = Ok grp_train ∧
    select_group out_test s t = Ok grp_test ∧
    body_of grp_train = tagged <$> take k (rows grp) ∧
    body_of grp_test = tagged <$> drop k (rows grp).
Proof.
  intros Hcsv Hset Hcut Hp Hinfo Hgrp Hcall.
  destruct (fresh_call_view _ _ _ _ _ _ _ _ _ _ Hcsv Hp Hinfo Hcall)
    as (ps & pt & sc & tc & parts & out1 & out2 & V).
  pose proof (output_group _ _ _ _ _ _ _ _ _ _ _ _ _ _ _ _ (s, t) Hset V) as Hgroup.
  destruct V as [Hps Hpt _ _ _ _ Ha Hb Hc1 Hc2 _ _].
  destruct (select_group_source info ps pt s t Hps Hpt) as (grp' & Hgrp' & Hrows).
  assert (grp' = grp) as -> by congruence.
  destruct (select_group_output info ps pt out1 s t Hps Hpt Hc1) as (g1 & Hg1 & Hb1).
  destruct (select_group_output info ps pt out2 s t Hps Hpt Hc2) as (g2 & Hg2 & Hb2).
  simpl in Hgroup. rewrite <- Hrows in Hgroup.
  destruct Hgroup as [(part & Hpiece & Hf1 & Hf2) | (Hnil & Hf1 & Hf2)].
  - destruct Hpiece as (tr_i & te_i & g & g' & [Hsplit _ _ Htr Hte]).
    rewrite <- Hrows in Hsplit, Htr, Hte.
    apply Hcut in Hsplit as (k & -> & ->). unfold arange in Htr, Hte.
    rewrite pick_take_seq in Htr. rewrite pick_drop_seq in Hte.
    injection Htr as Htr. injection Hte as Hte.
    exists out1, out2, g1, g2, k. split_and!; try done.
    + by rewrite Hb1, Hf1, <- Htr, fmap_take.
    + by rewrite Hb2, Hf2, <- Hte, fmap_drop.
  - apply fmap_nil_inv in Hnil.
    exists out1, out2, g1, g2, 0. split_and!; try done.
    + by rewrite Hb1, Hf1, Hnil.
    + by rewrite Hb2, Hf2, Hnil.
Qed.

(** ** Every row, once *)

(** Filtering a list by each of a list of distinct keys, when every
    element belongs to exactly one of the keys, rearranges the list. *)
Lemma filter_by_keys_cons_other {K A} (P : K → A → Prop) `{!∀ k a, Decision (P k a)}
    (ks : list K) (x : A) (l : list A) :
  (∀ k, k ∈ ks → ¬ P k x) →
  (λ k, filter (P k) (x :: l)) <$> ks = (λ k, filter (P k) l) <$> ks.
Proof.
  intros Hno. induction ks as [|k ks IH]; [done|]. csimpl.
  rewrite filter_cons_False by (apply Hno, list_elem_of_here).
  f_equal. apply IH. intros k' Hk'. apply Hno. by apply list_elem_of_further.
Qed.

Lemma filter_by_keys_cons {K A} (P : K → A → Prop) `{!∀ k a, Decision (P k a)}
    (ks : list K) (k0 : K) (x : A) (l : list A) :
  (∀ k, P k x → k = k0) →
  NoDup ks → k0 ∈ ks → P k0 x →
  concat ((λ k, filter (P k) (x :: l)) <$> ks)
  ≡ₚ x :: concat ((λ k, filter (P k) l) <$> ks).
Proof.
  intros Hfun Hnd Hin Hx. induction Hnd as [|k ks Hk Hnd IH]; [by apply elem_of_nil in Hin|].
  csimpl. destruct (decide (P k x)) as [Hpx|Hnpx].
  - assert (k = k0) as -> by (by apply Hfun).
    rewrite filter_cons_True by done.
    rewrite (filter_by_keys_cons_other P ks x l); [done|].
    intros k' Hk' Hpx'. apply Hfun in Hpx' as ->. done.
  - rewrite filter_cons_False by done.
    apply elem_of_cons in Hin as [->|Hin]; [done|].
    rewrite (IH Hin). by rewrite Permutation_middle.
Qed.

Lemma filter_by_keys {K A} (P : K → A → Prop) `{!∀ k a, Decision (P k a)}
    (ks : list K) (l : list A) :
  (∀ k1 k2 x, P k1 x → P k2 x → k1 = k2) →
  NoDup ks →
  (∀ x, x ∈ l → ∃ k, k ∈ ks ∧ P k x) →
  concat ((λ k, filter (P k) l) <$> ks) ≡ₚ l.
Proof.
  intros Hfun Hnd Hcover. induction l as [|x l IH].
  - clear. induction ks as [|k ks IH]; [done|]. csimpl. by rewrite IH.
  - destruct (Hcover x) as (k0 & Hk0 & Hx); [apply list_elem_of_here|].
    rewrite (filter_by_keys_cons P ks k0 x l); try done.
    + constructor. apply IH. intros y Hy. apply Hcover. by apply list_elem_of_further.
    + intros k Hk. by apply (Hfun k k0 x).
Qed.

Lemma concat_zip_app {A B} (f g : A → list B) (xs : list A) :
  concat (f <$> xs) ++ concat (g <$> xs) ≡ₚ concat ((λ x, f x ++ g x) <$> xs).
Proof.
  induction xs as [|x xs IH]; [done|]. csimpl.
  rewrite <- IH, <- !app_assoc. f_equiv.
  rewrite !app_assoc. f_equiv. apply Permutation_app_comm.
Qed.

Lemma pieces_partition ts sh rs info ps pt pairs parts :
  split_is_partition →
  Forall2 (is_piece ts sh rs info ps pt) pairs parts →
  concat ((λ part, body_of part.1 ++ body_of part.2) <$> parts)
  ≡ₚ concat (group_cells ps pt info <$> pairs).
Proof.
  intros Hsplit HF. induction HF as [|st part pairs parts Hpiece _ IH]; [done|].
  csimpl. by rewrite IH, (piece_partition _ _ _ _ _ _ _ _ Hsplit Hpiece).
Qed.

(** On a rectangular table every row has its two ids, and the pair of
    them is in the enumeration. *)
Lemma row_in_enumeration info ps pt sc tc r :
  set_enumeration → rectangular info →
  column_position "subject_id" (columns info) = Some ps →
  column_position "trial_id" (columns info) = Some pt →
  getitem info "subject_id" = Ok sc →
  getitem info "trial_id" = Ok tc →
  r ∈ rows info →
  ∃ st, st ∈ list_prod (list_set sc) (list_set tc) ∧ row_matches ps pt st.1 st.2 r.
Proof.
  intros Hset Hrect Hps Hpt Hsc Htc Hr.
  unfold rectangular in Hrect. rewrite Forall_forall in Hrect.
  specialize (Hrect r Hr).
  pose proof (column_position_lt _ _ _ Hps) as Lps.
  pose proof (column_position_lt _ _ _ Hpt) as Lpt.
  destruct (lookup_lt_is_Some_2 (cells r) ps) as [s Hs]; [lia|].
  destruct (lookup_lt_is_Some_2 (cells r) pt) as [t Ht]; [lia|].
  unfold getitem in Hsc, Htc. rewrite Hps in Hsc. rewrite Hpt in Htc.
  injection Hsc as <-. injection Htc as <-.
  exists (s, t). split; [|done].
  apply list_elem_of_In, in_prod_iff. split; apply list_elem_of_In.
  - apply (Hset _), list_elem_of_omap. eauto.
  - apply (Hset _), list_elem_of_omap. eauto.
Qed.

(** X3: no sample is lost and none is duplicated.  On a new path, for
    a rectangular table, the rows of the train table and the rows of
    the test table are together a rearrangement of the rows of the
    source table, each with its old label in front; so the two tables
    have as many rows as the source.  The split routine is assumed to
    return a partition of its indices, the set enumeration to list each
    id once, the CSV round trip to be lossless. *)
Theorem all_rows_kept_once d ts sh rs p info (w w' : @World FileContent) a b :
  csv_lossless → set_enumeration → split_is_partition →
  rectangular info →
  fs w !! p = None →
  dataset_info w d = Some info →
  split_call d ts sh rs (Some p) w = (Ok (a, b), w') →
  ∃ out_train out_test,
    dataset_info w' a = Some out_train ∧
    dataset_info w' b = Some out_test ∧
    body_of out_train ++ body_of out_test ≡ₚ tagged <$> rows info ∧
    len out_train + len out_test = len info.
Proof.
  intros Hcsv Hset Hsplit Hrect Hp Hinfo Hcall.
  destruct (fresh_call_view _ _ _ _ _ _ _ _ _ _ Hcsv Hp Hinfo Hcall)
    as (ps & pt & sc & tc & parts & out1 & out2 & V).
  destruct V as [Hps Hpt Hsc Htc _ Hpieces Ha Hb _ _ Hb1 Hb2].
  set (pairs := list_prod (list_set sc) (list_set tc)) in *.
  assert (Hperm : body_of out1 ++ body_of out2 ≡ₚ tagged <$> rows info).
  { rewrite Hb1, Hb2, concat_zip_app.
    rewrite (pieces_partition _ _ _ _ _ _ _ _ Hsplit Hpieces).
    transitivity
      (tagged <$> concat ((λ st : Value * Value,
                             filter (row_matches ps pt st.1 st.2) (rows info))
                          <$> pairs)).
    { rewrite fmap_concat, <- list_fmap_compose. done. }
    f_equiv.
    apply (filter_by_keys (λ st r, row_matches ps pt st.1 st.2 r)).
    - intros k1 k2 r. apply cells_match_functional.
    - apply NoDup_list_prod; apply Hset.
    - intros r Hr. by apply (row_in_enumeration info ps pt sc tc). }
  exists out1, out2. split_and!; try done.
  apply Permutation_length in Hperm.
  rewrite length_app, length_fmap in Hperm. unfold body_of in Hperm.
  by rewrite !length_fmap in Hperm.
Qed.

End Properties.

(** * The reference instance meets the assumptions *)

Lemma Ref_csv_lossless : csv_lossless Ref.to_csv_text Ref.read_csv_text.
Proof. intros cols body. reflexivity. Qed.

Lemma Ref_set_enumeration : set_enumeration Ref.list_set.
Proof.
  intros xs. split; [apply NoDup_remove_dups|].
  intros x. apply elem_of_remove_dups.
Qed.

Lemma rotate_Permutation {A} (n : nat) (l : list A) : rotate n l ≡ₚ l.
Proof.
  unfold rotate. rewrite Permutation_app_comm. by rewrite take_drop.
Qed.

Lemma Ref_split_is_partition : split_is_partition Ref.sk_train_test_split.
Proof.
  intros idx ts rs sh g tr te g' H. unfold Ref.sk_train_test_split in H.
  destruct (Ref.n_test_of ts (length idx)) as [n_test|]; [|discriminate].
  case_bool_decide as Hz; [discriminate|].
  destruct sh.
  - destruct (Ref.permutation rs g idx) as [pm g1] eqn:Hperm.
    injection H as <- <- <-.
    assert (Hpm : pm ≡ₚ idx).
    { unfold Ref.permutation in Hperm.
      destruct rs; injection Hperm as <- _; apply rotate_Permutation. }
    transitivity pm; [|done]. rewrite take_ge.
    + by rewrite Permutation_app_comm, take_drop.
    + rewrite length_drop, (Permutation_length Hpm). lia.
  - injection H as <- <- <-.
    rewrite (take_ge (drop _ _)); [by rewrite take_drop|].
    rewrite length_drop. lia.
Qed.

Lemma Ref_seeded : seeded_split_is_deterministic Ref.sk_train_test_split.
Proof.
  intros idx ts seed sh g g'. unfold Ref.sk_train_test_split.
  destruct (Ref.n_test_of ts (length idx)); [|done].
  case_bool_decide; [done|]. by destruct sh.
Qed.

Lemma Ref_unshuffled : unshuffled_split_ignores_seed Ref.sk_train_test_split.
Proof.
  intros idx ts rs rs' g g'. unfold Ref.sk_train_test_split.
  destruct (Ref.n_test_of ts (length idx)); [|done].
  by case_bool_decide.
Qed.

Lemma Ref_split_ten rs g train_index test_index g' :
  Ref.sk_train_test_split (arange 10) test_size_default rs false g
  = (Ok (train_index, test_index), g') →
  train_index = seq 0 8 ∧ test_index = [8; 9].
Proof. vm_compute. by intros [= <- <- _]. Qed.

Lemma Ref_count_ten rs sh g train_index test_index g' :
  Ref.sk_train_test_split (arange 10) test_size_default rs sh g
  = (Ok (train_index, test_index), g') →
  length train_index = 8 ∧ length test_index = 2.
Proof.
  intros H. apply Ref_split_is_partition in H as Hperm.
  unfold Ref.sk_train_test_split in H.
  change (Ref.n_test_of test_size_default (length (arange 10))) with (Some 2) in H.
  change (bool_decide (length (arange 10) - 2 = 0)) with false in H.
  cbv iota in H. apply Permutation_length in Hperm. rewrite length_app in Hperm.
  change (length (arange 10)) with 10 in *.
  destruct sh.
  - destruct (Ref.permutation rs g (arange 10)) as [pm g1] eqn:Hpm.
    injection H as <- <- <-.
    rewrite !length_take, !length_drop in Hperm |- *. lia.
  - injection H as <- <- <-. done.
Qed.

(** * The theorems at work on concrete tables *)

Local Abbreviation ref_call :=
  (train_test_split_groupby_trial Ref.list_set Ref.sk_train_test_split
     Ref.to_csv_text Ref.read_csv_text Ref.get_random_dir_path).

(** One group of ten rows: the partition of the group. *)
Lemma group_disjoint_cover_witness :
  ∃ grp out_train out_test grp_train grp_test,
    select_group Ref.info10 (VInt 1) (VInt 1) = Ok grp ∧
    dataset_info Ref.world10 6%positive = Some out_train ∧
    dataset_info Ref.world10 7%positive = Some out_test ∧
    select_group out_train (VInt 1) (VInt 1) = Ok grp_train ∧
    select_group out_test (VInt 1) (VInt 1) = Ok grp_test ∧
    body_of grp_train ++ body_of grp_test ≡ₚ tagged <$> rows grp ∧
    original_labels grp_train ++ original_labels grp_test ≡ₚ label <$> rows grp ∧
    (NoDup (label <$> rows grp) →
     ∀ x, x ∈ original_labels grp_train → x ∉ original_labels grp_test).
Proof.
  apply (group_disjoint_cover Ref.list_set Ref.sk_train_test_split
           Ref.to_csv_text Ref.read_csv_text Ref.get_random_dir_path
           1%positive test_size_default false None "split" Ref.info10
           (Ref.world_of Ref.info10) Ref.world10 6%positive 7%positive
           (VInt 1) (VInt 1)).
  - exact Ref_csv_lossless.
  - exact Ref_set_enumeration.
  - exact Ref_split_is_partition.
  - vm_compute. reflexivity.
  - vm_compute. reflexivity.
  - vm_compute. reflexivity.
Defined.

(** Two files written by hand are handed back as they are, whatever
    the parameters and the table of the dataset; and a second call on
    the path of a first one, with another test size, shuffling and a
    seed, returns the tables of the first. *)
Lemma cache_reuse_witness :
  (∃ a b w' out_train out_test,
      ref_call 1%positive (TsFloat (1 # 2)) true (Some 7%Z) (Some "cache")
        Ref.world_cached = (Ok (a, b), w') ∧
      dataset_info w' a = Some out_train ∧
      dataset_info w' b = Some out_test ∧
      holds_parsed out_train (["subject_id"; "note"], [[VInt 9; VStr "kept"]]) ∧
      holds_parsed out_test (["subject_id"; "note"], [[VInt 8; VStr "held out"]]) ∧
      fs w' = fs Ref.world_cached ∧ rng w' = rng Ref.world_cached)
  ∧
  (∃ dir c_train c_test parsed_train parsed_test a2 b2 w2 out_train out_test,
      fs Ref.world10 !! "split" = Some dir ∧
      dir !! "train.csv" = Some c_train ∧
      Ref.read_csv_text c_train = Ok parsed_train ∧
      dir !! "test.csv" = Some c_test ∧
      Ref.read_csv_text c_test = Ok parsed_test ∧
      ref_call 1%positive (TsFloat (1 # 2)) true (Some 7%Z) (Some "split")
        Ref.world10 = (Ok (a2, b2), w2) ∧
      dataset_info Ref.world10 6%positive = Some out_train ∧
      dataset_info Ref.world10 7%positive = Some out_test ∧
      dataset_info w2 a2 = Some out_train ∧
      dataset_info w2 b2 = Some out_test ∧
      holds_parsed out_train parsed_train ∧
      holds_parsed out_test parsed_test ∧
      fs w2 = fs Ref.world10 ∧ rng w2 = rng Ref.world10).
Proof.
  split.
  - apply (proj1 (cache_reuse Ref.list_set Ref.sk_train_test_split
                    Ref.to_csv_text Ref.read_csv_text Ref.get_random_dir_path
                    1%positive (TsFloat (1 # 2)) true (Some 7%Z) "cache")
             Ref.world_cached
             {[ "train.csv" := (["subject_id"; "note"], [[VInt 9; VStr "kept"]]);
                "test.csv" := (["subject_id"; "note"], [[VInt 8; VStr "held out"]]) ]}
             (["subject_id"; "note"], [[VInt 9; VStr "kept"]])
             (["subject_id"; "note"], [[VInt 8; VStr "held out"]])
             (["subject_id"; "note"], [[VInt 9; VStr "kept"]])
             (["subject_id"; "note"], [[VInt 8; VStr "held out"]])
             {[ "info" := 2%positive; "eeg_io" := 3%positive ]}).
    + vm_compute. reflexivity.
    + vm_compute. reflexivity.
    + reflexivity.
    + vm_compute. reflexivity.
    + reflexivity.
    + vm_compute. reflexivity.
  - apply (proj2 (cache_reuse Ref.list_set Ref.sk_train_test_split
                    Ref.to_csv_text Ref.read_csv_text Ref.get_random_dir_path
                    1%positive (TsFloat (1 # 2)) true (Some 7%Z) "split")
             test_size_default false None
             (Ref.world_of Ref.info10) Ref.world10 6%positive 7%positive).
    vm_compute. reflexivity.
Defined.

(** Ten rows, no shuffling: the first eight, then the last two. *)
Lemma no_shuffle_keeps_order_witness :
  ∃ out_train out_test grp_train grp_test,
    dataset_info Ref.world10 6%positive = Some out_train ∧
    dataset_info Ref.world10 7%positive = Some out_test ∧
    select_group out_train (VInt 1) (VInt 1) = Ok grp_train ∧
    select_group out_test (VInt 1) (VInt 1) = Ok grp_test ∧
    body_of grp_train = tagged <$> take 8 (rows Ref.info10) ∧
    body_of grp_test = tagged <$> drop 8 (rows Ref.info10).
Proof.
  apply (no_shuffle_keeps_order Ref.list_set Ref.sk_train_test_split
           Ref.to_csv_text Ref.read_csv_text Ref.get_random_dir_path
           1%positive None "split" Ref.info10
           (Ref.world_of Ref.info10) Ref.world10 6%positive 7%positive
           (VInt 1) (VInt 1) Ref.info10).
  - exact Ref_csv_lossless.
  - exact Ref_set_enumeration.
  - intros g tr te g'. apply Ref_split_ten.
  - vm_compute. reflexivity.
  - vm_compute. reflexivity.
  - vm_compute. reflexivity.
  - vm_compute. reflexivity.
  - vm_compute. reflexivity.
Defined.

(** The added first column: the returned train table does not have the
    columns of the source table. *)
Lemma output_columns_differ :
  ∃ a b w' out_train,
    ref_call 1%positive test_size_default false None (Some "split")
      (Ref.world_of Ref.info10) = (Ok (a, b), w') ∧
    dataset_info w' a = Some out_train ∧
    columns Ref.info10 = ["subject_id"; "trial_id"; "clip_id"] ∧
    columns out_train = ["index"; "subject_id"; "trial_id"; "clip_id"] ∧
    columns out_train ≠ columns Ref.info10.
Proof.
  exists 6%positive, 7%positive, Ref.world10.
  eexists. split_and!.
  - vm_compute. reflexivity.
  - vm_compute. reflexivity.
  - reflexivity.
  - reflexivity.
  - discriminate.
Defined.

Lemma output_columns_and_cells_witness :
  ∃ out_train out_test,
    dataset_info Ref.world10 6%positive = Some out_train ∧
    dataset_info Ref.world10 7%positive = Some out_test ∧
    columns out_train
    = reset_index_name (columns Ref.info10) :: columns Ref.info10 ∧
    columns out_test
    = reset_index_name (columns Ref.info10) :: columns Ref.info10 ∧
    (∀ c, c ∈ body_of out_train ++ body_of out_test →
          ∃ r, r ∈ rows Ref.info10 ∧ c = label r :: cells r).
Proof.
  apply (output_columns_and_cells Ref.list_set Ref.sk_train_test_split
           Ref.to_csv_text Ref.read_csv_text Ref.get_random_dir_path
           1%positive test_size_default false None "split" Ref.info10
           (Ref.world_of Ref.info10) Ref.world10 6%positive 7%positive).
  - exact Ref_csv_lossless.
  - vm_compute. reflexivity.
  - vm_compute. reflexivity.
  - vm_compute. reflexivity.
Defined.

(** Ten rows and a test size of 0.2: eight and two. *)
Lemma group_sizes_from_split_witness :
  ∃ out_train out_test grp_train grp_test,
    dataset_info Ref.world10 6%positive = Some out_train ∧
    dataset_info Ref.world10 7%positive = Some out_test ∧
    select_group out_train (VInt 1) (VInt 1) = Ok grp_train ∧
    select_group out_test (VInt 1) (VInt 1) = Ok grp_test ∧
    len grp_train = 8 ∧ len grp_test = 2.
Proof.
  destruct (group_sizes_from_split Ref.list_set Ref.sk_train_test_split
              Ref.to_csv_text Ref.read_csv_text Ref.get_random_dir_path
              1%positive test_size_default false None "split" Ref.info10
              (Ref.world_of Ref.info10) Ref.world10 6%positive 7%positive
              (VInt 1) (VInt 1) Ref.info10)
    as (out_train & out_test & grp_train & grp_test & tr_i & te_i & g & g'
        & Ha & Hb & Htr & Hte & _ & _ & _ & Hten).
  - exact Ref_csv_lossless.
  - exact Ref_set_enumeration.
  - vm_compute. reflexivity.
  - vm_compute. reflexivity.
  - vm_compute. reflexivity.
  - discriminate.
  - vm_compute. reflexivity.
  - assert (Hcount : len grp_train = 8 ∧ len grp_test = 2).
    { apply Hten; [reflexivity | reflexivity |].
      intros g0 tr te g1. apply Ref_count_ten. }
    exists out_train, out_test, grp_train, grp_test.
    exact (conj Ha (conj Hb (conj Htr (conj Hte Hcount)))).
Defined.

(** Shuffling with the seed 42, twice, on two new paths. *)
Lemma seeded_calls_agree_witness :
  ∃ a2 b2 w2 train_info test_info,
    ref_call 1%positive test_size_default true (Some 42%Z) (Some "run2")
      Ref.world10_seeded = (Ok (a2, b2), w2) ∧
    dataset_info Ref.world10_seeded 6%positive = Some train_info ∧
    dataset_info Ref.world10_seeded 7%positive = Some test_info ∧
    dataset_info w2 a2 = Some train_info ∧
    dataset_info w2 b2 = Some test_info.
Proof.
  apply (seeded_calls_agree Ref.list_set Ref.sk_train_test_split
           Ref.to_csv_text Ref.read_csv_text Ref.get_random_dir_path
           1%positive "run1" "run2"
           (Ref.world_of Ref.info10) Ref.world10_seeded 6%positive 7%positive).
  - exact Ref_seeded.
  - vm_compute. reflexivity.
  - vm_compute. reflexivity.
  - vm_compute. reflexivity.
Defined.


(** No shuffling, once without a seed and once with the seed 5. *)
Lemma seed_unused_without_shuffle_witness :
  ∃ a2 b2 w2 train_info test_info,
    ref_call 1%positive test_size_default false (Some 5%Z) (Some "again")
      Ref.world10 = (Ok (a2, b2), w2) ∧
    dataset_info Ref.world10 6%positive = Some train_info ∧
    dataset_info Ref.world10 7%positive = Some test_info ∧
    dataset_info w2 a2 = Some train_info ∧
    dataset_info w2 b2 = Some test_info.
Proof.
  apply (seed_unused_without_shuffle Ref.list_set Ref.sk_train_test_split
           Ref.to_csv_text Ref.read_csv_text Ref.get_random_dir_path
           1%positive test_size_default None (Some 5%Z) "split" "again"
           (Ref.world_of Ref.info10) Ref.world10 6%positive 7%positive).
  - exact Ref_unshuffled.
  - vm_compute. reflexivity.
  - vm_compute. reflexivity.
  - vm_compute. reflexivity.
Defined.

(** Two subjects and two trials with interleaved rows: the enumeration
    is subject by subject and, within a subject, trial by trial, so the
    train table lists the source rows 0, 2, 1, 3 in that order. *)
Lemma split_follows_cross_product_witness :
  (∃ sc tc parts train_info test_info,
      getitem Ref.info_grid "subject_id" = Ok sc ∧
      getitem Ref.info_grid "trial_id" = Ok tc ∧
      split_pairs Ref.sk_train_test_split Ref.info_grid test_size_default false None
        (list_prod (Ref.list_set sc) (Ref.list_set tc))
        (rng (Ref.world_of Ref.info_grid))
      = (Ok parts, rng Ref.world_grid) ∧
      cross_product_split Ref.list_set Ref.sk_train_test_split Ref.info_grid
        test_size_default false None (rng (Ref.world_of Ref.info_grid))
      = (Ok (train_info, test_info), rng Ref.world_grid) ∧
      fs Ref.world_grid !! "split"
      = Some (split_dir Ref.to_csv_text train_info test_info) ∧
      body_of train_info = concat ((λ part, body_of part.1) <$> parts) ∧
      body_of test_info = concat ((λ part, body_of part.2) <$> parts)) ∧
  label <$> rows Ref.info_grid = range_label <$> seq 0 8 ∧
  original_labels <$> dataset_info Ref.world_grid 6%positive
  = Some [VInt 0; VInt 2; VInt 1; VInt 3] ∧
  original_labels <$> dataset_info Ref.world_grid 7%positive
  = Some [VInt 4; VInt 6; VInt 5; VInt 7].
Proof.
  split; [|by vm_compute].
  apply (split_follows_cross_product Ref.list_set Ref.sk_train_test_split
           Ref.to_csv_text Ref.read_csv_text Ref.get_random_dir_path
           1%positive test_size_default false None "split" Ref.info_grid
           (Ref.world_of Ref.info_grid) Ref.world_grid 6%positive 7%positive).
  - vm_compute. reflexivity.
  - vm_compute. reflexivity.
  - vm_compute. reflexivity.
Defined.

(** The copies share the sample storage at [3] with the dataset at [1]. *)
Lemma returned_datasets_are_shallow_copies_witness :
  ∃ attrs l_train l_test df_train df_test,
    heap (Ref.world_of Ref.info10) !! 1%positive = Some (DatasetObj attrs) ∧
    heap Ref.world10 !! 6%positive
    = Some (DatasetObj (<["info" := l_train]> attrs)) ∧
    heap Ref.world10 !! 7%positive
    = Some (DatasetObj (<["info" := l_test]> attrs)) ∧
    heap Ref.world10 !! l_train = Some (FrameObj df_train) ∧
    heap Ref.world10 !! l_test = Some (FrameObj df_test) ∧
    heap (Ref.world_of Ref.info10) !! 6%positive = None ∧
    heap (Ref.world_of Ref.info10) !! 7%positive = None ∧
    heap (Ref.world_of Ref.info10) !! l_train = None ∧
    heap (Ref.world_of Ref.info10) !! l_test = None ∧
    6%positive ≠ 7%positive ∧ l_train ≠ l_test ∧
    heap Ref.world10 !! 1%positive = Some (DatasetObj attrs) ∧
    (∀ l o, heap (Ref.world_of Ref.info10) !! l = Some o →
            heap Ref.world10 !! l = Some o).
Proof.
  apply (returned_datasets_are_shallow_copies Ref.list_set Ref.sk_train_test_split
           Ref.to_csv_text Ref.read_csv_text Ref.get_random_dir_path
           1%positive test_size_default false None "split"
           (Ref.world_of Ref.info10) Ref.world10 6%positive 7%positive).
  vm_compute. reflexivity.
Defined.

(** A table with its columns and no row. *)
Lemma empty_table_raises_witness :
  ∃ e w',
    ref_call 1%positive test_size_default false None (Some "split")
      (Ref.world_of Ref.info0) = (Raise e, w') ∧
    fs w' = <["split" := ∅]> (fs (Ref.world_of Ref.info0)) ∧
    (is_Some (column_position "subject_id" (columns Ref.info0)) →
     is_Some (column_position "trial_id" (columns Ref.info0)) →
     e = TypeError).
Proof.
  apply (empty_table_raises Ref.list_set Ref.sk_train_test_split
           Ref.to_csv_text Ref.read_csv_text Ref.get_random_dir_path
           1%positive test_size_default false None "split" Ref.info0
           (Ref.world_of Ref.info0)).
  - exact Ref_set_enumeration.
  - vm_compute. reflexivity.
  - vm_compute. reflexivity.
  - reflexivity.
Defined.

(** * Further properties at work *)

Lemma Ref_rejects_empty : split_rejects_empty Ref.sk_train_test_split.
Proof.
  intros ts rs sh g tr te g'. unfold Ref.sk_train_test_split. simpl.
  destruct (Ref.n_test_of ts 0); [|done]. done.
Qed.

Lemma Ref_unshuffled_cut : unshuffled_split_is_a_cut Ref.sk_train_test_split.
Proof.
  intros idx ts rs g tr te g' H. unfold Ref.sk_train_test_split in H.
  destruct (Ref.n_test_of ts (length idx)) as [n_test|]; [|discriminate].
  case_bool_decide as Hz; [discriminate|]. injection H as <- <- <-.
  exists (length idx - n_test). split; [done|].
  apply take_ge. rewrite length_drop. lia.
Qed.

(** The table without rows: the call raises, and so does every later
    call with the same path. *)
Lemma failed_creation_poisons_path_witness :
  ∃ e' w',
    ref_call 1%positive test_size_default false None (Some "split")
      (Ref.world_of Ref.info0) = (Raise e', w') ∧
    fs w' = <["split" := ∅]> (fs (Ref.world_of Ref.info0)) ∧
    heap w' = heap (Ref.world_of Ref.info0) ∧
    ∀ d2 ts2 sh2 rs2,
      ref_call d2 ts2 sh2 rs2 (Some "split") w' = (Raise FileNotFoundError, w').
Proof.
  apply (failed_creation_poisons_path Ref.list_set Ref.sk_train_test_split
           Ref.to_csv_text Ref.read_csv_text Ref.get_random_dir_path
           1%positive test_size_default false None "split" Ref.info0
           (Ref.world_of Ref.info0) ValueError).
  - vm_compute. reflexivity.
  - vm_compute. reflexivity.
  - vm_compute. reflexivity.
Defined.

(** Subject 1 has no row for trial 2: the call raises. *)
Lemma sparse_table_raises_witness :
  ∃ e w',
    ref_call 1%positive test_size_default false None (Some "split")
      (Ref.world_of Ref.info_sparse) = (Raise e, w') ∧
    fs w' = <["split" := ∅]> (fs (Ref.world_of Ref.info_sparse)).
Proof.
  apply (sparse_table_raises Ref.list_set Ref.sk_train_test_split
           Ref.to_csv_text Ref.read_csv_text Ref.get_random_dir_path
           1%positive test_size_default false None "split" Ref.info_sparse
           (Ref.world_of Ref.info_sparse)
           [VInt 1; VInt 1; VInt 2; VInt 2] [VInt 1; VInt 1; VInt 2; VInt 2]
           (VInt 1) (VInt 2)
           {| columns := ["subject_id"; "trial_id"; "clip_id"]; rows := [] |}).
  - exact Ref_set_enumeration.
  - exact Ref_rejects_empty.
  - vm_compute. reflexivity.
  - vm_compute. reflexivity.
  - vm_compute. reflexivity.
  - apply list_elem_of_here.
  - vm_compute. reflexivity.
  - do 2 apply list_elem_of_further. apply list_elem_of_here.
  - vm_compute. reflexivity.
  - reflexivity.
Defined.

(** The interleaved table: its eight rows, four in each output. *)
Lemma all_rows_kept_once_witness :
  ∃ out_train out_test,
    dataset_info Ref.world_grid 6%positive = Some out_train ∧
    dataset_info Ref.world_grid 7%positive = Some out_test ∧
    body_of out_train ++ body_of out_test ≡ₚ tagged <$> rows Ref.info_grid ∧
    len out_train + len out_test = len Ref.info_grid.
Proof.
  apply (all_rows_kept_once Ref.list_set Ref.sk_train_test_split
           Ref.to_csv_text Ref.read_csv_text Ref.get_random_dir_path
           1%positive test_size_default false None "split" Ref.info_grid
           (Ref.world_of Ref.info_grid) Ref.world_grid 6%positive 7%positive).
  - exact Ref_csv_lossless.
  - exact Ref_set_enumeration.
  - exact Ref_split_is_partition.
  - unfold rectangular. vm_compute. repeat constructor.
  - vm_compute. reflexivity.
  - vm_compute. reflexivity.
  - vm_compute. reflexivity.
Defined.

(** The table of two nested splits cannot be split a third time. *)
Lemma taken_index_names_raise_witness :
  ref_call 1%positive test_size_default false None (Some "split")
    (Ref.world_of Ref.info_nested)
  = (Raise ValueError,
     {| fs := <["split" := ∅]> (fs (Ref.world_of Ref.info_nested));
        heap := heap (Ref.world_of Ref.info_nested);
        rng := rng (Ref.world_of Ref.info_nested) |}).
Proof.
  apply (taken_index_names_raise Ref.list_set Ref.sk_train_test_split
           Ref.to_csv_text Ref.read_csv_text Ref.get_random_dir_path
           1%positive test_size_default false None "split" Ref.info_nested
           (Ref.world_of Ref.info_nested)).
  - exact Ref_set_enumeration.
  - vm_compute. reflexivity.
  - vm_compute. reflexivity.
  - unfold rectangular. vm_compute. repeat constructor.
  - discriminate.
  - vm_compute. eauto.
  - vm_compute. eauto.
  - apply list_elem_of_further, list_elem_of_here.
  - apply list_elem_of_here.
Defined.

Lemma missing_id_column_raises_witness :
  ref_call 1%positive test_size_default false None (Some "split")
    (Ref.world_of Ref.info_no_trial)
  = (Raise KeyError,
     {| fs := <["split" := ∅]> (fs (Ref.world_of Ref.info_no_trial));
        heap := heap (Ref.world_of Ref.info_no_trial);
        rng := rng (Ref.world_of Ref.info_no_trial) |}).
Proof.
  apply (missing_id_column_raises Ref.list_set Ref.sk_train_test_split
           Ref.to_csv_text Ref.read_csv_text Ref.get_random_dir_path
           1%positive test_size_default false None "split" Ref.info_no_trial).
  - vm_compute. reflexivity.
  - vm_compute. reflexivity.
  - right. vm_compute. reflexivity.
Defined.

(** The split of the dataset at [1] is handed to the dataset at [4],
    whose own table is another one. *)
Lemma cache_ignores_dataset_witness :
  ∃ a2 b2 w2 l_train l_test train_info test_info,
    ref_call 4%positive (TsFloat (1 # 2)) true (Some 7%Z) (Some "split")
      Ref.world_two_after = (Ok (a2, b2), w2) ∧
    dataset_info Ref.world_two_after 8%positive = Some train_info ∧
    dataset_info Ref.world_two_after 9%positive = Some test_info ∧
    dataset_info w2 a2 = Some train_info ∧
    dataset_info w2 b2 = Some test_info ∧
    heap w2 !! a2
    = Some (DatasetObj (<["info" := l_train]>
                          {[ "info" := 5%positive; "eeg_io" := 3%positive;
                             "name" := 3%positive ]})) ∧
    heap w2 !! b2
    = Some (DatasetObj (<["info" := l_test]>
                          {[ "info" := 5%positive; "eeg_io" := 3%positive;
                             "name" := 3%positive ]})).
Proof.
  apply (cache_ignores_dataset Ref.list_set Ref.sk_train_test_split
           Ref.to_csv_text Ref.read_csv_text Ref.get_random_dir_path
           1%positive 4%positive test_size_default false None
           (TsFloat (1 # 2)) true (Some 7%Z) "split"
           Ref.world_two Ref.world_two_after 8%positive 9%positive).
  - vm_compute. reflexivity.
  - vm_compute. reflexivity.
Defined.

(** Four groups of two rows: each is cut after its first row. *)
Lemma no_shuffle_cuts_every_group_witness :
  ∃ out_train out_test grp_train grp_test k,
    dataset_info Ref.world_grid 6%positive = Some out_train ∧
    dataset_info Ref.world_grid 7%positive = Some out_test ∧
    select_group out_train (VInt 1) (VInt 0) = Ok grp_train ∧
    select_group out_test (VInt 1) (VInt 0) = Ok grp_test ∧
    body_of grp_train
    = tagged <$> take k [Ref.grid_row 1; Ref.grid_row 5] ∧
    body_of grp_test
    = tagged <$> drop k [Ref.grid_row 1; Ref.grid_row 5].
Proof.
  apply (no_shuffle_cuts_every_group Ref.list_set Ref.sk_train_test_split
           Ref.to_csv_text Ref.read_csv_text Ref.get_random_dir_path
           1%positive test_size_default None "split" Ref.info_grid
           (Ref.world_of Ref.info_grid) Ref.world_grid 6%positive 7%positive
           (VInt 1) (VInt 0)
           {| columns := ["subject_id"; "trial_id"; "clip_id"];
              rows := [Ref.grid_row 1; Ref.grid_row 5] |}).
  - exact Ref_csv_lossless.
  - exact Ref_set_enumeration.
  - exact Ref_unshuffled_cut.
  - vm_compute. reflexivity.
  - vm_compute. reflexivity.
  - vm_compute. reflexivity.
  - vm_compute. reflexivity.
Defined.

(** The failing call on the table without rows has left the dataset,
    its table and its storage as they were. *)
Lemma call_never_modifies_objects_witness :
  heap Ref.world0 !! 3%positive = Some (OpaqueObj [7%Z; 7%Z]) ∧
  heap Ref.world0 !! 2%positive = Some (FrameObj Ref.info0).
Proof.
  split.
  - apply (call_never_modifies_objects Ref.list_set Ref.sk_train_test_split
             Ref.to_csv_text Ref.read_csv_text Ref.get_random_dir_path
             1%positive test_size_default false None "split"
             (Ref.world_of Ref.info0) Ref.world0 (Raise TypeError)).
    + vm_compute. reflexivity.
    + vm_compute. reflexivity.
  - apply (call_never_modifies_objects Ref.list_set Ref.sk_train_test_split
             Ref.to_csv_text Ref.read_csv_text Ref.get_random_dir_path
             1%positive test_size_default false None "split"
             (Ref.world_of Ref.info0) Ref.world0 (Raise TypeError)).
    + vm_compute. reflexivity.
    + vm_compute. reflexivity.
Defined.

(** A call on the path the first call has created, and one on the path
    the failed call has left. *)
Lemma existing_path_is_read_only_witness :
  fs (ref_call 1%positive test_size_default true None (Some "split") Ref.world10).2
  = fs Ref.world10 ∧
  rng (ref_call 1%positive test_size_default true None (Some "split") Ref.world10).2
  = rng Ref.world10.
Proof.
  apply (existing_path_is_read_only Ref.list_set Ref.sk_train_test_split
           Ref.to_csv_text Ref.read_csv_text Ref.get_random_dir_path
           1%positive test_size_default true None "split" Ref.world10 _
           (ref_call 1%positive test_size_default true None (Some "split")
              Ref.world10).1).
  - vm_compute. eauto.
  - apply surjective_pairing.
Defined.
